(** * Antibody virtual screening: a model of [antibody_virtual_screening.py]

    The pipeline is  raw records -> [load_antibody_data] -> [screen_antibodies]
    -> [generate_report].  The data class and the three stages of the source
    are written here as executable Rocq functions over

    - binary64 floating-point numbers (the kernel's primitive floats, which
      are the IEEE 754 doubles Python's [float] is made of),
    - Python's unbounded integers as [Z],
    - an exception monad with a state: the lists that live on the heap and
      the trace of what was logged, printed or written.

    Text is modelled as ASCII strings ([len] is the number of characters and
    [upper] acts on the letters a-z).  The loader and the screen only read
    their argument and return a list of their own, so they take and return
    lists by value; [generate_report] takes its list by reference. *)

From Stdlib Require Import ZArith Floats Ascii String.
From stdpp Require Import gmap strings list sorting pretty.

#[local] Set Warnings "-inexact-float".
#[local] Open Scope Z_scope.

(** ** Exceptions *)

(** The exception classes that can reach the code.  A subclass is identified
    with the listed class it derives from. *)
Inductive exn :=
  | ZeroDivisionError
  | OverflowError
  | ValueError
  | TypeError
  | KeyError
  | OSError.

#[global] Instance exn_eq_dec : EqDecision exn.
Proof. solve_decision. Defined.

(** The outcome of evaluating an expression. *)
Inductive result (A : Type) :=
  | Ok (a : A)
  | Raise (e : exn).
#[global] Arguments Ok {A} a.
#[global] Arguments Raise {A} e.

#[global] Instance result_ret : MRet result := @Ok.
#[global] Instance result_bind : MBind result := λ A B f r,
  match r with Ok a => f a | Raise e => Raise e end.
#[global] Instance result_fmap : FMap result := λ A B f r,
  match r with Ok a => Ok (f a) | Raise e => Raise e end.

(** [[f(x) for x in l]] where [f] may raise: elements are visited in order
    and the first exception ends the traversal. *)
Fixpoint traverse {A B} (f : A → result B) (l : list A) : result (list B) :=
  match l with
  | [] => Ok []
  | x :: l' => y ← f x; ys ← traverse f l'; Ok (y :: ys)
  end.

(** ** The builtins of the Python runtime that the program calls *)

Module Py.

(** [len(l)] as a Python integer. *)
Definition len {A} (l : list A) : Z := Z.of_nat (length l).

(** *** Integers and floats *)

(** The integer [z] (or [-z] when [s] is set, for [0 <= z]) as an exact,
    not yet rounded, binary float. *)
Definition signed_spec (s : bool) (z : Z) : spec_float :=
  match z with
  | Z0 => S754_zero s
  | Zpos p => S754_finite s p 0
  | Zneg p => S754_finite (negb s) p 0
  end.

Definition spec_of_Z (z : Z) : spec_float := signed_spec false z.

(** The largest double is [2^1024 - 2^971]; a real number rounds to a finite
    double exactly when its magnitude is below [2^1024 - 2^970]. *)
Definition overflow_threshold : Z := 2 ^ 1024 - 2 ^ 970.

(** [a / b] on integers (true division): the correctly rounded quotient.
    CPython raises [ZeroDivisionError] on a zero divisor and [OverflowError]
    when the rounded quotient is not a finite double. *)
Definition int_true_div (a b : Z) : result float :=
  if b =? 0 then Raise ZeroDivisionError
  else if overflow_threshold * Z.abs b <=? Z.abs a then Raise OverflowError
  else Ok (SF2Prim (SFdiv prec emax (spec_of_Z a) (spec_of_Z b))).

(** [x / y] on floats raises on a zero divisor (of either sign). *)
Definition float_div (x y : float) : result float :=
  if (y =? 0)%float then Raise ZeroDivisionError else Ok (x / y)%float.

(** [min(a, b)]: the builtin keeps its first argument unless a later one
    compares strictly smaller. *)
Definition min (a b : float) : float :=
  if (b <? a)%float then b else a.

(** *** Decimal rendering of floats *)

(** [a / b] rounded to the nearest integer, ties to even ([0 <= a], [0 < b]). *)
Definition div_half_even (a b : Z) : Z :=
  let q := a / b in
  match 2 * (a mod b) ?= b with
  | Lt => q
  | Gt => q + 1
  | Eq => if Z.even q then q else q + 1
  end.

(** [m * 2^e * 10^nd] rounded to an integer, ties to even. *)
Definition scaled_digits (m : positive) (e : Z) (nd : nat) : Z :=
  if 0 <=? e then Z.pos m * 2 ^ e * 10 ^ Z.of_nat nd
  else div_half_even (Z.pos m * 10 ^ Z.of_nat nd) (2 ^ (- e)).

Fixpoint zeros (n : nat) : string :=
  match n with
  | O => ""
  | S n' => "0" +:+ zeros n'
  end.

Definition zero_pad (w : nat) (s : string) : string :=
  zeros (w - String.length s) +:+ s.

Definition fixed_point (s : bool) (n : Z) (nd : nat) : string :=
  (if s then "-" else "") +:+ pretty (n / 10 ^ Z.of_nat nd)
  +:+ (if bool_decide (nd = 0%nat) then ""
       else "." +:+ zero_pad nd (pretty (n mod 10 ^ Z.of_nat nd))).

(** [format(x, ".{nd}f")]: the exact value of [x], correctly rounded to [nd]
    decimals. *)
Definition format_f (nd : nat) (x : float) : string :=
  match Prim2SF x with
  | S754_nan => "nan"
  | S754_infinity s => if s then "-inf" else "inf"
  | S754_zero s => fixed_point s 0 nd
  | S754_finite s m e => fixed_point s (scaled_digits m e nd) nd
  end.

(** [round(x, nd)] for [0 <= nd]: the double nearest to the decimal that
    [format_f] prints. *)
Definition round (x : float) (nd : nat) : float :=
  match Prim2SF x with
  | S754_finite s m e =>
      if 0 <=? e then x
      else SF2Prim (SFdiv prec emax
                      (signed_spec s (scaled_digits m e nd))
                      (spec_of_Z (10 ^ Z.of_nat nd)))
  | _ => x
  end.

(** *** Text *)

(** [c.upper()] on an ASCII character. *)
Definition ascii_upper (c : ascii) : ascii :=
  let n := N_of_ascii c in
  if ((97 <=? n) && (n <=? 122))%N then ascii_of_N (n - 32) else c.

(** [s.upper()]. *)
Fixpoint upper (s : string) : string :=
  match s with
  | EmptyString => EmptyString
  | String c s' => String (ascii_upper c) (upper s')
  end.

(** *** Lists *)

(** [l[:k]]: a negative bound counts from the end of the list. *)
Definition slice_to {A} (k : Z) (l : list A) : list A :=
  if 0 <=? k then take (Z.to_nat k) l
  else take (length l - Z.to_nat (- k)) l.

(** [enumerate(l)], counting from [start]. *)
Fixpoint enumerate {A} (start : Z) (l : list A) : list (Z * A) :=
  match l with
  | [] => []
  | x :: l' => (start, x) :: enumerate (start + 1) l'
  end.

(** The list sort of CPython (3.11), [list.sort], on items decorated with
    their keys.  Only [<] is ever asked of two keys.  A list of fewer than
    64 items is sorted in one piece: [count_run] takes the run the list
    starts with, which either never steps down ([next < previous] is false
    at each step) or steps down every time (and is then reversed), and
    [binarysort] inserts the items after the run one by one, each at the
    place a binary search gives.  A list of 64 items or more is cut into
    pieces, each prepared in this way, and the pieces are merged; whenever
    no key is a NaN the result is the same, the one ascending arrangement
    that keeps items of equal keys in their order.  The definition follows
    the path of the short lists at every length.  With a NaN among the
    keys [<] is no order, and where an item lands depends on which items
    the binary search asks. *)

(** The binary search of [binarysort] in the sorted part [a], and the
    insertion of [pivot] where it ends: the middle item of the window is
    asked whether [pivot] is below it; the window goes on to the left of it
    if so, and to the right of it if not.  [fuel] bounds the number of
    steps; the length of [a] is enough. *)
Fixpoint binary_insert {A} (fuel : nat) (pivot : float * A)
    (a : list (float * A)) : list (float * A) :=
  match fuel, drop (Nat.div2 (length a)) a with
  | S fuel, x :: back =>
      let front := take (Nat.div2 (length a)) a in
      if (pivot.1 <? x.1)%float
      then binary_insert fuel pivot front ++ x :: back
      else front ++ x :: binary_insert fuel pivot back
  | _, _ => a ++ [pivot]
  end.

Fixpoint binarysort {A} (sorted rest : list (float * A))
  : list (float * A) :=
  match rest with
  | [] => sorted
  | pivot :: rest =>
      binarysort (binary_insert (length sorted) pivot sorted) rest
  end.

(** How many items after [prev] go on with a run that does not step
    down, and with one that steps down every time. *)
Fixpoint run_ascending {A} (prev : float * A) (l : list (float * A))
  : nat :=
  match l with
  | [] => 0
  | x :: l' =>
      if (x.1 <? prev.1)%float then 0 else S (run_ascending x l')
  end.

Fixpoint run_descending {A} (prev : float * A) (l : list (float * A))
  : nat :=
  match l with
  | [] => 0
  | x :: l' =>
      if (x.1 <? prev.1)%float then S (run_descending x l') else 0
  end.

(** The length of the run at the front of the list, and whether it
    descends. *)
Definition count_run {A} (l : list (float * A)) : nat * bool :=
  match l with
  | x :: y :: l' =>
      if (y.1 <? x.1)%float then (S (S (run_descending y l')), true)
      else (S (S (run_ascending y l')), false)
  | _ => (length l, false)
  end.

(** The ascending sort. *)
Definition list_sort {A} (l : list (float * A)) : list (float * A) :=
  let '(n, descending) := count_run l in
  let run := take n l in
  binarysort (if descending then reverse run else run) (drop n l).

(** With [reverse=True] the list is reversed, sorted in ascending order
    and reversed again. *)
Definition list_sort_reverse {A} (l : list (float * A))
  : list (float * A) :=
  reverse (list_sort (reverse l)).

(** [sorted(l, key=key, reverse=True)]: the keys are computed first, one
    call per item in list order, and an exception raised by [key] ends the
    call; the result is a new list. *)
Definition sorted_reverse {A} (key : A → result float) (l : list A)
  : result (list A) :=
  keys ← traverse key l;
  Ok (list_sort_reverse (zip keys l)).*2.

End Py.

(** ** Data model *)

(** [AntibodyCandidate]: the dataclass, with its six fields. *)
Record AntibodyCandidate := {
  id : string;
  sequence : string;
  stability_score : float;
  solubility_score : float;
  immunogenicity_score : float;
  binding_affinity : float
}.

(** The [composite_score] property.  The division is the only operation
    that can raise. *)
Definition composite_score (self : AntibodyCandidate) : result float :=
  quotient ← Py.float_div 100 (binding_affinity self + 1);
  Ok (stability_score self * 0.3 +
      solubility_score self * 0.25 +
      (100 - immunogenicity_score self) * 0.25 +
      Py.min 100 quotient * 0.2)%float.

(** The configuration dictionary, through the four keys the code reads
    (no function reads ["batch_size"]). *)
Record Config := {
  stability_threshold : float;
  solubility_threshold : float;
  immunogenicity_threshold : float;
  top_k : Z
}.

Definition CONFIG : Config := {|
  stability_threshold := 75.0;
  solubility_threshold := 60.0;
  immunogenicity_threshold := 30.0;
  top_k := 5
|}.

(** A value of a raw record is an arbitrary Python object.  The loader does
    two things with such a value, [str(v)] and [float(v)], so an object is
    given by the outcome of each. *)
Record pyobject := {
  to_str : result string;
  to_float : result float
}.

(** A raw record: a dictionary from field names to objects. *)
Definition raw_record := gmap string pyobject.

(** The report that [generate_report] returns. *)
Record Summary := {
  total_input : Z;
  passed_count : Z;
  pass_rate : string
}.

(** One item of ["top_candidates"]: the rank, the fields of the candidate
    ([asdict]) and the rounded score. *)
Record Entry := {
  rank : Z;
  fields : AntibodyCandidate;
  rounded_score : float
}.

Record Report := {
  timestamp : string;
  summary : Summary;
  top_candidates : list Entry;
  recommendations : list string
}.

(** ** Effects *)

(** What the program logs, by content; the wording of a message is a
    function of it. *)
Inductive message :=
  | MissingFields (idx : nat)
  | SequenceTooShort (candidate_id : string)
  | BadFormat (idx : nat) (e : exn)
  | Loaded (accepted total : Z)
  | Screened (total passed : Z) (rate : string)
  | ReportSaved (path : string).

Inductive level := INFO | WARNING | ERROR.

Inductive event :=
  | Log (lvl : level) (m : message)
  | Console (r : Report)
  | FileWrite (path : string) (r : Report).

(** A list that is passed by reference is an object on the heap. *)
Definition loc := positive.

Record world := {
  heap : gmap loc (list AntibodyCandidate);
  trace : list event
}.

(** What a call reads from its environment: the clock, and whether a path
    can be opened for writing. *)
Record env := {
  now : string;
  open_fails : string → bool
}.

(** Computations: they may raise, and they act on the world either way. *)
Definition M (A : Type) : Type := world → result A * world.

#[global] Instance M_ret : MRet M := λ A a w, (Ok a, w).
#[global] Instance M_bind : MBind M := λ A B f m w,
  match m w with
  | (Ok a, w') => f a w'
  | (Raise e, w') => (Raise e, w')
  end.

Definition lift {A} (r : result A) : M A := λ w, (r, w).

Definition raise {A} (e : exn) : M A := lift (Raise e).

(** The world after one more event. *)
Definition with_event (w : world) (ev : event) : world :=
  {| heap := heap w; trace := trace w ++ [ev] |}.

Definition emit (ev : event) : M unit := λ w, (Ok tt, with_event w ev).

Definition log (lvl : level) (m : message) : M unit := emit (Log lvl m).

(** [try: body except classes: handler]: [handler e] is [None] when the
    except clause does not name the class of [e]. *)
Definition try_except {A} (body : M A) (handler : exn → option (M A)) : M A :=
  λ w, match body w with
       | (Ok a, w') => (Ok a, w')
       | (Raise e, w') =>
           match handler e with
           | Some h => h w'
           | None => (Raise e, w')
           end
       end.

(** Reading the list a reference points to. *)
Definition read (l : loc) : M (list AntibodyCandidate) := λ w,
  (Ok (default [] (heap w !! l)), w).

(** A new list object. *)
Definition alloc (items : list AntibodyCandidate) : M loc := λ w,
  let l := fresh (dom (heap w)) in
  (Ok l, {| heap := <[l := items]> (heap w); trace := trace w |}).

(** ** Module 1: loading and cleaning *)

Definition required_fields : list string :=
  ["id"; "sequence"; "stability_score"; "solubility_score";
   "immunogenicity_score"; "binding_affinity"].

(** [record[key]]. *)
Definition subscript (record : raw_record) (key : string) : result pyobject :=
  match record !! key with
  | Some v => Ok v
  | None => Raise KeyError
  end.

(** The constructor call of the loader: the arguments are evaluated from
    left to right and the first exception ends the evaluation. *)
Definition convert (record : raw_record) : result AntibodyCandidate :=
  id_ ← subscript record "id" ≫= to_str;
  sequence_ ← subscript record "sequence" ≫= to_str;
  stability ← subscript record "stability_score" ≫= to_float;
  solubility ← subscript record "solubility_score" ≫= to_float;
  immunogenicity ← subscript record "immunogenicity_score" ≫= to_float;
  affinity ← subscript record "binding_affinity" ≫= to_float;
  Ok {| id := id_;
        sequence := Py.upper sequence_;
        stability_score := stability;
        solubility_score := solubility;
        immunogenicity_score := immunogenicity;
        binding_affinity := affinity |}.

(** [except (ValueError, TypeError)]. *)
Definition handled (e : exn) : bool :=
  match e with
  | ValueError | TypeError => true
  | _ => false
  end.

(** The body of the loop, for the record at index [idx]; [candidates] is the
    list built so far. *)
Definition load_record (idx : nat) (record : raw_record)
    (candidates : list AntibodyCandidate) : M (list AntibodyCandidate) :=
  try_except
    (if negb (forallb (λ field, bool_decide (is_Some (record !! field)))
                required_fields)
     then log WARNING (MissingFields idx);; mret candidates
     else
       candidate ← lift (convert record);
       if bool_decide (String.length (sequence candidate) < 50)%nat
       then log WARNING (SequenceTooShort (id candidate));; mret candidates
       else mret (candidates ++ [candidate]))
    (λ e, if handled e
          then Some (log ERROR (BadFormat idx e);; mret candidates)
          else None).

Fixpoint load_loop (idx : nat) (raw_data : list raw_record)
    (candidates : list AntibodyCandidate) : M (list AntibodyCandidate) :=
  match raw_data with
  | [] => mret candidates
  | record :: rest =>
      candidates' ← load_record idx record candidates;
      load_loop (S idx) rest candidates'
  end.

Definition load_antibody_data (raw_data : list raw_record)
  : M (list AntibodyCandidate) :=
  candidates ← load_loop 0 raw_data [];
  log INFO (Loaded (Py.len candidates) (Py.len raw_data));;
  mret candidates.

(** ** Module 2: screening *)

(** The filtering loop: each of the three tests skips the candidate. *)
Fixpoint filter_loop (config : Config) (candidates : list AntibodyCandidate)
    (filtered : list AntibodyCandidate) : list AntibodyCandidate :=
  match candidates with
  | [] => filtered
  | antibody :: rest =>
      if (stability_score antibody <? stability_threshold config)%float
      then filter_loop config rest filtered
      else if (solubility_score antibody <? solubility_threshold config)%float
      then filter_loop config rest filtered
      else if (immunogenicity_threshold config
               <? immunogenicity_score antibody)%float
      then filter_loop config rest filtered
      else filter_loop config rest (filtered ++ [antibody])
  end.

Definition screen_antibodies (candidates : list AntibodyCandidate)
    (config : Config) : M (list AntibodyCandidate) :=
  let filtered := filter_loop config candidates [] in
  ranked ← lift (Py.sorted_reverse composite_score filtered);
  ratio ← lift (Py.int_true_div (Py.len filtered) (Py.len candidates));
  log INFO (Screened (Py.len candidates) (Py.len filtered)
              (Py.format_f 1 (ratio * 100)%float));;
  mret (Py.slice_to (top_k config) ranked).

(** ** Module 3: the report *)

Definition make_entry (item : Z * AntibodyCandidate) : result Entry :=
  score ← composite_score item.2;
  Ok {| rank := item.1 + 1; fields := item.2;
        rounded_score := Py.round score 2 |}.

Definition recommend (ab : AntibodyCandidate) : result string :=
  score ← composite_score ab;
  Ok ("优先推进候选抗体 " +:+ id ab +:+ "（综合评分: "
      +:+ Py.format_f 1 score +:+ "）").

(** [if output_path:] holds for a path that is given and not empty. *)
Definition truthy_path (output_path : option string) : option string :=
  match output_path with
  | Some EmptyString => None
  | other => other
  end.

(** [top_antibodies] is the reference the caller passes.  The local variable
    of that name is bound again to the list [sorted] returns. *)
Definition generate_report (E : env) (top_antibodies : loc) (total_input : Z)
    (output_path : option string) : M Report :=
  given ← read top_antibodies;
  top_antibodies ←
    (match given with
     | [] => mret top_antibodies
     | _ :: _ => lift (Py.sorted_reverse composite_score given) ≫= alloc
     end);
  ranked ← read top_antibodies;
  ratio ← lift (Py.int_true_div (Py.len ranked) total_input);
  entries ← lift (traverse make_entry (Py.enumerate 0 ranked));
  advice ← lift (traverse recommend (take 3 ranked));
  let report :=
    {| timestamp := now E;
       summary := {| total_input := total_input;
                     passed_count := Py.len ranked;
                     pass_rate := Py.format_f 1 (ratio * 100)%float +:+ "%" |};
       top_candidates := entries;
       recommendations := advice |} in
  emit (Console report);;
  match truthy_path output_path with
  | Some path =>
      if open_fails E path then raise OSError
      else emit (FileWrite path report);; log INFO (ReportSaved path)
  | None => mret tt
  end;;
  mret report.

(** ** The vocabulary of the specification *)

(** [x] is a number: it is not a NaN. *)
Definition is_number (x : float) : Prop := (x =? x)%float = true.

(** The composite score in the words of the specification: a function of
    the four numeric attributes. *)
Definition weighted_sum (stability solubility immunogenicity affinity : float)
  : float :=
  (stability * 0.30 + solubility * 0.25 + (100 - immunogenicity) * 0.25
   + Py.min 100 (100 / (affinity + 1)) * 0.20)%float.

(** The candidates that [filter_loop] keeps: none of its three tests fires. *)
Definition passes_gate (config : Config) (c : AntibodyCandidate) : bool :=
  negb (stability_score c <? stability_threshold config)%float
  && negb (solubility_score c <? solubility_threshold config)%float
  && negb (immunogenicity_threshold config <? immunogenicity_score c)%float.

(** The hard gate in the words of the specification. *)
Definition survives (config : Config) (c : AntibodyCandidate) : Prop :=
  (stability_threshold config <=? stability_score c)%float = true
  ∧ (solubility_threshold config <=? solubility_score c)%float = true
  ∧ (immunogenicity_score c <=? immunogenicity_threshold config)%float = true.

(** The three attributes the gate reads, and the thresholds, are numbers. *)
Definition gate_numbers (c : AntibodyCandidate) : Prop :=
  is_number (stability_score c) ∧ is_number (solubility_score c)
  ∧ is_number (immunogenicity_score c).

Definition threshold_numbers (config : Config) : Prop :=
  is_number (stability_threshold config)
  ∧ is_number (solubility_threshold config)
  ∧ is_number (immunogenicity_threshold config).

(** The composite score of [c] is defined and is a number. *)
Definition scorable (c : AntibodyCandidate) : Prop :=
  ∃ k, composite_score c = Ok k ∧ is_number k.

(** [c] has the composite score [s]. *)
Definition score_is (s : float) (c : AntibodyCandidate) : Prop :=
  ∃ k, composite_score c = Ok k ∧ (k =? s)%float = true.

#[global] Instance score_is_dec s c : Decision (score_is s c).
Proof.
  unfold score_is. destruct (composite_score c) as [k|e].
  - destruct (k =? s)%float eqn:E.
    + left. eauto.
    + right. intros (k' & [= <-] & H). congruence.
  - right. intros (k' & [=] & _).
Defined.

(** On items decorated with their keys: the key of [y] is at most that of
    [x]. *)
Definition key_ge {A} (x y : float * A) : Prop := (y.1 <=? x.1)%float = true.

(** Each item of a decorated list carries its own composite score. *)
Definition decorated (d : list (float * AntibodyCandidate)) : Prop :=
  Forall (λ kc, composite_score kc.2 = Ok kc.1) d.

(** [b] does not score more than [a]: the order of a descending ranking. *)
Definition score_ge (a b : AntibodyCandidate) : Prop :=
  ∃ ka kb, composite_score a = Ok ka ∧ composite_score b = Ok kb
           ∧ (kb <=? ka)%float = true.

(** A record passes the three checks of the loader: the six fields are
    present, every conversion succeeds, and the normalised sequence has at
    least 50 characters. *)
Definition accepted (record : raw_record) (c : AntibodyCandidate) : Prop :=
  Forall (λ field, is_Some (record !! field)) required_fields
  ∧ convert record = Ok c
  ∧ (50 ≤ String.length (sequence c))%nat.

(** The candidate that a raw record yields, if any: validation and
    construction are one step, and a record that fails a check yields
    nothing. *)
Definition candidate_of (record : raw_record) : option AntibodyCandidate :=
  if forallb (λ field, bool_decide (is_Some (record !! field))) required_fields
  then match convert record with
       | Ok c => if bool_decide (50 ≤ String.length (sequence c))%nat
                 then Some c else None
       | Raise _ => None
       end
  else None.

(** No conversion of the record raises an exception that the loader does
    not handle. *)
Definition contained (record : raw_record) : Prop :=
  Forall (λ field, is_Some (record !! field)) required_fields →
  ∀ e, convert record = Raise e → handled e = true.

(** The record holds, under [key], an object on which [str] (resp. [float])
    returns the given value. *)
Definition has_text (record : raw_record) (key s : string) : Prop :=
  ∃ v, record !! key = Some v ∧ to_str v = Ok s.

Definition has_float (record : raw_record) (key : string) (x : float) : Prop :=
  ∃ v, record !! key = Some v ∧ to_float v = Ok x.

(** A computation leaves every object of the heap as it is: it may only
    add new objects. *)
Definition frame {A} (m : M A) : Prop := ∀ w, heap w ⊆ heap (m w).2.

(** [1, 2, ..., n]. *)
Definition ranks (n : nat) : list Z := (λ i : nat, Z.of_nat i + 1) <$> seq 0 n.

(** The bound on the number of items of a list ([sys.maxsize]). *)
Definition maxsize : Z := 2 ^ 63 - 1.

(** ** Sample inputs *)

Definition SEQ : string :=
  "EVQLVESGGGLVQPGGSLRLSCAASGFTFDDYAMHWVRQAPGKGLEWVSAITWNSGHIDYADSVEGRFTISRDNAKNSLYLQMNSLRAEDTALYYCAK".

(** [create_mock_candidate] of the test suite. *)
Definition create_mock_candidate (id_suffix : string)
    (stability solubility immunogenicity affinity : float) : AntibodyCandidate :=
  {| id := "AB_" +:+ id_suffix; sequence := SEQ;
     stability_score := stability; solubility_score := solubility;
     immunogenicity_score := immunogenicity; binding_affinity := affinity |}.

Definition test_config (k : Z) : Config :=
  {| stability_threshold := 75.0; solubility_threshold := 60.0;
     immunogenicity_threshold := 30.0; top_k := k |}.

Definition empty_world : world := {| heap := ∅; trace := [] |}.

(** A world whose heap holds one list, at reference 1. *)
Definition world_with (items : list AntibodyCandidate) : world :=
  {| heap := {[ 1%positive := items ]}; trace := [] |}.

(** An environment whose clock reads [t] and where every path is
    writable. *)
Definition env_at (t : string) : env :=
  {| now := t; open_fails := λ _, false |}.

(** The candidates of [test_screen_top_k]. *)
Definition top_k_batch : list AntibodyCandidate :=
  [create_mock_candidate "0001" 80.0 70.0 25.0 0.5;
   create_mock_candidate "0002" 90.0 70.0 25.0 0.5;
   create_mock_candidate "0003" 85.0 70.0 25.0 0.5;
   create_mock_candidate "0004" 88.0 70.0 25.0 0.5].

(** Three candidates, the first and the last with the same score. *)
Definition tied_batch : list AntibodyCandidate :=
  [create_mock_candidate "0001" 80.0 70.0 25.0 0.5;
   create_mock_candidate "0002" 90.0 70.0 25.0 0.5;
   create_mock_candidate "0003" 80.0 70.0 25.0 0.5].

(** Seven candidates that pass the thresholds of the tests: the third has
    a NaN stability score and so a NaN composite score, the fifth scores
    more than the others, and the five others tie. *)
Definition nan_tie_batch : list AntibodyCandidate :=
  [create_mock_candidate "0001" 80.0 70.0 25.0 0.5;
   create_mock_candidate "0002" 80.0 70.0 25.0 0.5;
   create_mock_candidate "0003" nan 70.0 25.0 0.5;
   create_mock_candidate "0004" 80.0 70.0 25.0 0.5;
   create_mock_candidate "0005" 90.0 70.0 25.0 0.5;
   create_mock_candidate "0006" 80.0 70.0 25.0 0.5;
   create_mock_candidate "0007" 80.0 70.0 25.0 0.5].

(** Three candidates, the second with a NaN stability score. *)
Definition nan_batch : list AntibodyCandidate :=
  [create_mock_candidate "0001" 80.0 70.0 25.0 0.5;
   create_mock_candidate "0002" nan 70.0 25.0 0.5;
   create_mock_candidate "0003" 90.0 70.0 25.0 0.5].

(** A sequence of 100 characters, in lower case. *)
Definition seq100 : string :=
  "evqlvesggglvqpggslrlscaasgftfddyamhwvrqapgkglewvsaitwnsghidyadsvegrftisrdnaknslylqmnslraedtalyycakgs".

(** A [str] object: [float] of a text that is not a numeral raises
    [ValueError]. *)
Definition text (s : string) : pyobject :=
  {| to_str := Ok s; to_float := Raise ValueError |}.

(** A [float] object, with the text [str] prints for it. *)
Definition number (x : float) (printed : string) : pyobject :=
  {| to_str := Ok printed; to_float := Ok x |}.

(** An [int] too large for a double, such as [10**400]: [float] raises
    [OverflowError]. *)
Definition huge_int (printed : string) : pyobject :=
  {| to_str := Ok printed; to_float := Raise OverflowError |}.

Definition raw (id_ sequence_ : string) (stability solubility immunogenicity
    affinity : pyobject) : raw_record :=
  {[ "id" := text id_; "sequence" := text sequence_;
     "stability_score" := stability; "solubility_score" := solubility;
     "immunogenicity_score" := immunogenicity;
     "binding_affinity" := affinity ]}.

(** The four records of the loader's tests: a valid one, one without
    scores, one with a short sequence, one with a score that is not a
    numeral. *)
Definition mixed_batch : list raw_record :=
  [raw "AB_0001" SEQ (number 85.0 "85.0") (number 70.0 "70.0")
     (number 25.0 "25.0") (number 0.5 "0.5");
   {[ "id" := text "AB_0002"; "sequence" := text SEQ ]};
   raw "AB_0003" "EVQLV" (number 85.0 "85.0") (number 70.0 "70.0")
     (number 25.0 "25.0") (number 0.5 "0.5");
   raw "AB_0004" SEQ (text "invalid") (number 70.0 "70.0")
     (number 25.0 "25.0") (number 0.5 "0.5")].

(** ** The main flow *)

(** [float(n)] on an integer: the nearest double, or [OverflowError] when
    that is not finite. *)
Definition float_of_int (n : Z) : result float :=
  if Py.overflow_threshold <=? Z.abs n then Raise OverflowError
  else Ok (SF2Prim (binary_normalize prec emax n 0 false)).

(** An [int] object. *)
Definition int_object (n : Z) : pyobject :=
  {| to_str := Ok (pretty n); to_float := float_of_int n |}.

(** A [float] object; [repr] is what [str] returns on a float (the
    pipeline never applies [str] to a score). *)
Definition float_object (repr : float → string) (x : float) : pyobject :=
  {| to_str := Ok (repr x); to_float := Ok x |}.

(** The mock record of index [i]. *)
Definition mock_record (repr : float → string) (i : Z) : result raw_record :=
  ratio ← Py.int_true_div (i `mod` 100) 100;
  Ok ({[ "id" := text ("AB_" +:+ Py.zero_pad 4 (pretty i));
         "sequence" := text SEQ;
         "stability_score" := int_object (60 + i `mod` 40);
         "solubility_score" := int_object (50 + i `mod` 50);
         "immunogenicity_score" := int_object (20 + i `mod` 60);
         "binding_affinity" := float_object repr (0.1 + ratio)%float ]}
      : raw_record).

(** [main]: the three stages on 1000 mock records.  The list that
    [screen_antibodies] returns is the object passed to
    [generate_report].  [logging.basicConfig] chooses how a log line is
    rendered, which the trace leaves open. *)
Definition main (repr : float → string) (E : env) : M Report :=
  mock_data ← lift (traverse (mock_record repr) (seqZ 0 1000));
  candidates ← load_antibody_data mock_data;
  top_antibodies ← screen_antibodies candidates CONFIG;
  top_antibodies ← alloc top_antibodies;
  generate_report E top_antibodies (Py.len mock_data)
    (Some "screening_report.json").

(** On decorated items: the key of [x] is not below that of [y].  This is
    the order the sort leaves any two neighbours in. *)
Definition key_not_lt {A} (x y : float * A) : Prop :=
  (x.1 <? y.1)%float = false.

(** * Properties *)

(** ** Binary64 comparisons and sums, from the specification of the
    primitive floats *)

Module FloatFacts.
#[local] Open Scope float_scope.

Lemma SFcompare_antisym x y c :
  SFcompare x y = Some c → SFcompare y x = Some (CompOpp c).
Proof.
  destruct x as [[]|[]| |[] m1 e1], y as [[]|[]| |[] m2 e2]; simpl;
    intros [= <-]; try reflexivity; f_equal;
    rewrite (Z.compare_antisym e1 e2);
    destruct (e1 ?= e2)%Z; simpl; try reflexivity;
    change (PosDef.Pos.compare_cont Eq ?a ?b) with (a ?= b)%positive;
    rewrite (Pos.compare_antisym m1 m2); destruct (m1 ?= m2)%positive; reflexivity.
Qed.

Lemma SFcompare_refl x : x ≠ S754_nan → SFcompare x x = Some Eq.
Proof.
  destruct x as [[]|[]| |[] m e]; simpl; intros H; try done;
    rewrite Z.compare_refl;
    change (PosDef.Pos.compare_cont Eq ?a ?b) with (a ?= b)%positive;
    rewrite Pos.compare_refl; done.
Qed.

Lemma SFcompare_is_Some x y :
  x ≠ S754_nan → y ≠ S754_nan → is_Some (SFcompare x y).
Proof. destruct x as [| | |], y as [| | |]; simpl; intros; try done; eauto. Qed.

Lemma is_number_spec x : is_number x ↔ Prim2SF x ≠ S754_nan.
Proof.
  unfold is_number. rewrite FloatAxioms.eqb_spec. unfold SFeqb. split.
  - intros H E. rewrite E in H. done.
  - intros H. rewrite SFcompare_refl; done.
Qed.

Lemma ltb_leb x y : (x <? y) = true → (x <=? y) = true.
Proof.
  rewrite FloatAxioms.ltb_spec, FloatAxioms.leb_spec. unfold SFltb, SFleb.
  destruct (SFcompare _ _) as [[]|]; done.
Qed.

Lemma leb_not_ltb x y : (y <=? x) = true → (x <? y) = false.
Proof.
  rewrite FloatAxioms.ltb_spec, FloatAxioms.leb_spec. unfold SFltb, SFleb.
  destruct (SFcompare (Prim2SF y) _) as [c|] eqn:E; [|done].
  rewrite (SFcompare_antisym _ _ _ E). destruct c; done.
Qed.

Lemma not_ltb_leb x y :
  is_number x → is_number y → (x <? y) = false → (y <=? x) = true.
Proof.
  rewrite !is_number_spec, FloatAxioms.ltb_spec, FloatAxioms.leb_spec. unfold SFltb, SFleb.
  intros Hx Hy. destruct (SFcompare_is_Some _ _ Hx Hy) as [c E].
  rewrite E, (SFcompare_antisym _ _ _ E). destruct c; done.
Qed.

Lemma SFcompare_Eq_trans x y z :
  SFcompare x z = Some Eq → SFcompare y z = Some Eq → SFcompare x y = Some Eq.
Proof.
  destruct x as [[]|[]| |[] m1 e1], y as [[]|[]| |[] m2 e2],
    z as [[]|[]| |[] m3 e3]; simpl; try done;
    change (PosDef.Pos.compare_cont Eq ?a ?b) with (a ?= b)%positive;
    destruct (e1 ?= e3)%Z eqn:E13; try done;
    destruct (e2 ?= e3)%Z eqn:E23; try done;
    apply Z.compare_eq in E13, E23; subst; rewrite Z.compare_refl;
    destruct (m1 ?= m3)%positive eqn:M13; try done;
    destruct (m2 ?= m3)%positive eqn:M23; try done;
    apply Pos.compare_eq in M13, M23; subst; rewrite Pos.compare_refl; done.
Qed.

Lemma eqb_not_ltb x y s : (x =? s) = true → (y =? s) = true → (x <? y) = false.
Proof.
  rewrite !FloatAxioms.eqb_spec, FloatAxioms.ltb_spec. unfold SFeqb, SFltb. intros Hx Hy.
  destruct (SFcompare (Prim2SF x) (Prim2SF s)) as [[]|] eqn:Ex; try done.
  destruct (SFcompare (Prim2SF y) (Prim2SF s)) as [[]|] eqn:Ey; try done.
  rewrite (SFcompare_Eq_trans _ _ _ Ex Ey). done.
Qed.

Lemma SFcompare_le_trans x y z c1 c2 :
  SFcompare x y = Some c1 → c1 ≠ Gt →
  SFcompare y z = Some c2 → c2 ≠ Gt →
  ∃ c3, SFcompare x z = Some c3 ∧ c3 ≠ Gt.
Proof.
  destruct x as [[]|[]| |[] m1 e1], y as [[]|[]| |[] m2 e2],
    z as [[]|[]| |[] m3 e3]; simpl; intros [= <-] H1 [= <-] H2;
    try done; try (eexists; split; [reflexivity|done]);
    change (PosDef.Pos.compare_cont Eq ?a ?b) with (a ?= b)%positive in *;
    eexists; (split; [reflexivity|]);
    destruct (Z.compare_spec e1 e2), (Z.compare_spec e2 e3),
      (Z.compare_spec e1 e3); try done; try lia; subst;
    destruct (Pos.compare_spec m1 m2), (Pos.compare_spec m2 m3),
      (Pos.compare_spec m1 m3); simpl in *; try done; try lia.
Qed.

Lemma leb_trans (x y z : float) :
  (x <=? y) = true → (y <=? z) = true → (x <=? z) = true.
Proof.
  rewrite !FloatAxioms.leb_spec. unfold SFleb.
  destruct (SFcompare (Prim2SF x) (Prim2SF y)) as [c1|] eqn:E1; [|done].
  destruct (SFcompare (Prim2SF y) (Prim2SF z)) as [c2|] eqn:E2;
    [|by destruct c1].
  intros H1 H2.
  destruct (SFcompare_le_trans _ _ _ c1 c2 E1 ltac:(by destruct c1) E2
              ltac:(by destruct c2)) as (c3 & -> & H3).
  by destruct c3.
Qed.

(** Rounding never turns a non-zero number that is a multiple of the least
    subnormal into zero. *)
Lemma digits2_size p : digits2_pos p = Pos.size p.
Proof. induction p; simpl; congruence. Qed.

Lemma digits2_bounds p :
  (2 ^ (Z.pos (digits2_pos p) - 1) ≤ Z.pos p < 2 ^ Z.pos (digits2_pos p))%Z.
Proof.
  rewrite digits2_size. split.
  - pose proof (Pos.size_le p) as H.
    assert (2 ^ Z.pos (Pos.size p) ≤ 2 * Z.pos p)%Z as H'.
    { rewrite <- Pos2Z.inj_pow. change 2%Z with (Z.pos 2).
      rewrite <- Pos2Z.inj_mul. apply Pos2Z.pos_le_pos.
      change (2 * p)%positive with (p~0)%positive. exact H. }
    replace (Z.pos (Pos.size p)) with (Z.succ (Z.pos (Pos.size p) - 1)) in H' by lia.
    rewrite Z.pow_succ_r in H' by lia. lia.
  - rewrite <- Pos2Z.inj_pow. apply Pos2Z.pos_lt_pos. apply Pos.size_gt.
Qed.

Lemma iter_pos_iter {A} (f : A → A) p x :
  SpecFloat.iter_pos f p x = Pos.iter f x p.
Proof.
  revert x. induction p; intros x; simpl; rewrite ?IHp, ?Pos.iter_swap;
    reflexivity.
Qed.

Lemma shr_m_shr_1 mrs : (0 ≤ shr_m mrs)%Z → shr_m (shr_1 mrs) = Z.div2 (shr_m mrs).
Proof. destruct mrs as [[|[]|[]] r s]; simpl; intros; done || lia. Qed.

Lemma shr_m_iter mrs k :
  (0 ≤ shr_m mrs)%Z →
  shr_m (Pos.iter shr_1 mrs k) = (shr_m mrs / 2 ^ Z.pos k)%Z.
Proof.
  intros Hm. rewrite <- Z.shiftr_div_pow2 by lia.
  change (Z.shiftr (shr_m mrs) (Z.pos k)) with (Pos.iter Z.div2 (shr_m mrs) k).
  revert mrs Hm. induction k using Pos.peano_ind; intros mrs Hm.
  - simpl. apply shr_m_shr_1, Hm.
  - rewrite !Pos.iter_succ. rewrite shr_m_shr_1.
    + rewrite IHk by done. done.
    + rewrite IHk by done.
      change (Pos.iter Z.div2 (shr_m mrs) k) with (Z.shiftr (shr_m mrs) (Z.pos k)).
      apply Z.shiftr_nonneg. done.
Qed.

Lemma shr_fexp_pos m e l mrs e' :
  (0 < m)%Z → (SpecFloat.emin prec emax ≤ e)%Z →
  shr_fexp prec emax m e l = (mrs, e') →
  (0 < shr_m mrs)%Z ∧ (e ≤ e')%Z.
Proof.
  intros Hm He. unfold shr_fexp, shr, fexp.
  cbv [SpecFloat.emin prec emax] in *.
  assert (shr_m (shr_record_of_loc m l) = m) as Hrec
    by (destruct l as [|[]]; reflexivity).
  destruct m as [|p|p]; [lia| |lia]. simpl Zdigits2.
  pose proof (digits2_bounds p) as [Hlo _].
  destruct (Z.max _ _ - e)%Z as [|k|k] eqn:Hn; intros [= <- <-];
    rewrite ?Hrec; try (split; lia).
  split; [|lia].
  rewrite iter_pos_iter, shr_m_iter by (rewrite Hrec; lia). rewrite Hrec.
  apply Z.div_str_pos. split; [apply Z.pow_pos_nonneg; lia|].
  etrans; [|exact Hlo]. apply Z.pow_le_mono_r; lia.
Qed.

Lemma binary_round_aux_nonzero s m e l s' :
  (0 < m)%Z → (SpecFloat.emin prec emax ≤ e)%Z →
  binary_round_aux prec emax s m e l ≠ S754_zero s'.
Proof.
  intros Hm He. unfold binary_round_aux.
  destruct (shr_fexp prec emax m e l) as [mrs1 e1] eqn:E1.
  destruct (shr_fexp_pos _ _ _ _ _ Hm He E1) as [Hm1 He1].
  destruct (shr_fexp prec emax _ e1 loc_Exact) as [mrs2 e2] eqn:E2.
  apply shr_fexp_pos in E2 as [Hm2 _]; [| |lia].
  - destruct (shr_m mrs2); [lia| |lia]. destruct (_ <=? _)%Z; done.
  - unfold round_nearest_even.
    destruct (loc_of_shr_record mrs1) as [|[]]; try lia.
    destruct (Z.even _); lia.
Qed.

Lemma valid_finite_bounds s m e :
  valid_binary (S754_finite s m e) = true →
  e = Z.max (Z.pos (digits2_pos m) + e - 53) (-1074).
Proof.
  simpl. unfold bounded, canonical_mantissa, fexp.
  cbv [SpecFloat.emin prec emax]. intros [H _]%andb_prop. lia.
Qed.

Lemma binary_round_nonzero s p e s' :
  (-1074 ≤ e)%Z → binary_round prec emax s p e ≠ S754_zero s'.
Proof.
  intros He. unfold binary_round, shl_align.
  destruct (fexp prec emax (Z.pos (digits2_pos p) + e) - e)%Z eqn:E;
    apply binary_round_aux_nonzero; try done;
    unfold fexp in *; cbv [SpecFloat.emin prec emax] in *; lia.
Qed.

Lemma pos_iter_xO p d : Z.pos (Pos.iter xO p d) = (Z.pos p * 2 ^ Z.pos d)%Z.
Proof.
  induction d using Pos.peano_ind.
  - simpl. lia.
  - rewrite Pos.iter_succ, Pos2Z.inj_succ, Z.pow_succ_r by lia.
    rewrite Pos2Z.inj_xO, IHd. lia.
Qed.

Lemma shl_align_fst m e e' :
  (e' ≤ e)%Z → Z.pos (fst (shl_align m e e')) = (Z.pos m * 2 ^ (e - e'))%Z.
Proof.
  intros He. unfold shl_align. destruct (e' - e)%Z as [|d|d] eqn:E; simpl.
  - replace (e - e')%Z with 0%Z by lia. lia.
  - lia.
  - rewrite pos_iter_xO. f_equal. f_equal. lia.
Qed.

Lemma SFeqb_zero_inv r :
  SFeqb r (S754_zero false) = true → ∃ s, r = S754_zero s.
Proof. destruct r as [s|[]| |[] m e]; simpl; try done. eauto. Qed.

Lemma SFadd_one_zero s m e :
  valid_binary (S754_finite s m e) = true →
  SFeqb (SFadd prec emax (S754_finite s m e)
           (S754_finite false 4503599627370496 (-52))) (S754_zero false) = true →
  s = true ∧ m = 4503599627370496%positive ∧ e = (-52)%Z.
Proof.
  intros Hv [s0 H]%SFeqb_zero_inv. apply valid_finite_bounds in Hv.
  pose proof (digits2_bounds m) as [Hlo Hhi].
  unfold SFadd, binary_normalize in H.
  pose proof (shl_align_fst m e (Z.min e (-52)) ltac:(lia)) as Hm.
  pose proof (shl_align_fst 4503599627370496 (-52) (Z.min e (-52)) ltac:(lia)) as H1.
  match type of H with
  | match ?t with _ => _ end = _ => destruct t as [|p|p] eqn:Hsum
  end; [|by apply binary_round_nonzero in H; [|lia]..].
  clear H. destruct s; simpl in Hsum; [|lia].
  assert (Z.pos m * 2 ^ (e - Z.min e (-52))
          = 4503599627370496 * 2 ^ (-52 - Z.min e (-52)))%Z as Heq by lia.
  clear Hsum Hm H1. split; [done|].
  destruct (Z.le_gt_cases e (-52)) as [Hle|Hgt].
  - rewrite Z.min_l in Heq by lia. rewrite Z.sub_diag, Z.mul_1_r in Heq.
    change 4503599627370496%Z with (2 ^ 52)%Z in Heq.
    rewrite <- Z.pow_add_r in Heq by lia.
    replace (52 + (-52 - e))%Z with (- e)%Z in Heq by lia.
    rewrite Heq in Hlo, Hhi.
    apply Z.pow_le_mono_r_iff in Hlo; [|lia..].
    apply Z.pow_lt_mono_r_iff in Hhi; [|lia..].
    assert (e = -52)%Z as -> by lia. split; [|done].
    apply Pos2Z.inj. rewrite Heq. done.
  - rewrite Z.min_r in Heq by lia. exfalso.
    replace (-52 - -52)%Z with 0%Z in Heq by lia.
    assert (Z.pos (digits2_pos m) = 53)%Z as Hd by lia.
    rewrite Hd in Hlo. change (2 ^ (53 - 1))%Z with 4503599627370496%Z in Hlo.
    assert (2 ^ 1 ≤ 2 ^ (e - -52))%Z by (apply Z.pow_le_mono_r; lia).
    change (2 ^ 1)%Z with 2%Z in *. change (2 ^ 0)%Z with 1%Z in Heq. nia.
Qed.

Lemma SFeqb_finite_inv r s m e :
  SFeqb r (S754_finite s m e) = true → r = S754_finite s m e.
Proof.
  destruct r as [|[]| |s' m' e']; simpl; try (destruct s; done).
  unfold SFeqb. simpl.
  change (PosDef.Pos.compare_cont Eq ?a ?b) with (a ?= b)%positive.
  destruct s', s; try done; destruct (e' ?= e)%Z eqn:Ee; try done;
    destruct (m' ?= m)%positive eqn:Em; try done;
    apply Z.compare_eq in Ee; apply Pos.compare_eq in Em; by subst.
Qed.

(** In binary64, [x + 1] is zero exactly when [x] is [-1]. *)
Lemma add_one_eqb_zero x : (x + 1 =? 0) = (x =? -1).
Proof.
  apply Bool.eq_iff_eq_true.
  rewrite !FloatAxioms.eqb_spec, FloatAxioms.add_spec.
  change (Prim2SF 1) with (S754_finite false 4503599627370496 (-52)).
  change (Prim2SF 0) with (S754_zero false).
  change (Prim2SF (-1)) with (S754_finite true 4503599627370496 (-52)).
  pose proof (Prim2SF_valid x) as Hv. split.
  - destruct (Prim2SF x) as [[]|[]| |s m e]; try done.
    intros (-> & -> & ->)%SFadd_one_zero; done.
  - intros ->%SFeqb_finite_inv. vm_compute. done.
Qed.
End FloatFacts.

(** ** The composite score *)

(** C1.  The composite score of every candidate is the weighted sum of the
    specification, [stability*0.30 + solubility*0.25 + (100 -
    immunogenicity)*0.25 + min(100, 100/(affinity+1))*0.20], applied to its
    four numeric fields and to nothing else; the one exception is
    [binding_affinity = -1], where the division raises.  Two candidates that
    agree on the four fields therefore always have the same score. *)
Theorem composite_score_weighted_sum (c : AntibodyCandidate) :
  composite_score c =
    (if (binding_affinity c =? -1)%float then Raise ZeroDivisionError
     else Ok (weighted_sum (stability_score c) (solubility_score c)
                (immunogenicity_score c) (binding_affinity c)))
  ∧ ∀ c', stability_score c' = stability_score c →
          solubility_score c' = solubility_score c →
          immunogenicity_score c' = immunogenicity_score c →
          binding_affinity c' = binding_affinity c →
          composite_score c' = composite_score c.
Proof.
  split.
  - unfold composite_score, Py.float_div, weighted_sum.
    rewrite FloatFacts.add_one_eqb_zero.
    destruct (binding_affinity c =? -1)%float; reflexivity.
  - intros c' Hst Hso Him Haf. unfold composite_score.
    rewrite Hst, Hso, Him, Haf. reflexivity.
Qed.
(** ** Comprehensions *)

Section traverse.
Context {A B : Type} (f : A → result B).

Lemma traverse_Ok l ys :
  traverse f l = Ok ys ↔ Forall2 (λ x y, f x = Ok y) l ys.
Proof.
  revert ys. induction l as [|x l IH]; intros ys; simpl.
  - split; [intros [= <-]; constructor|by inversion 1].
  - destruct (f x) as [y|e] eqn:Hx; simpl.
    + destruct (traverse f l) as [ys'|e] eqn:Hl; simpl.
      * split.
        -- intros [= <-]. constructor; [done|by apply IH].
        -- inversion 1 as [|? y' ? ys'' Hy Hys]; subst.
           apply IH in Hys. congruence.
      * split; [done|]. inversion 1 as [|? y' ? ys'' Hy Hys]; subst.
        apply IH in Hys. done.
    + split; [done|]. inversion 1; congruence.
Qed.

Lemma traverse_total l :
  Forall (λ x, ∃ y, f x = Ok y) l → ∃ ys, traverse f l = Ok ys.
Proof.
  induction 1 as [|x l [y Hy] _ [ys Hys]]; simpl; [by eexists|].
  rewrite Hy, Hys. by eexists.
Qed.

Lemma traverse_Raise l e :
  traverse f l = Raise e → ∃ x, x ∈ l ∧ f x = Raise e.
Proof.
  induction l as [|x l IH]; simpl; [done|].
  destruct (f x) as [y|e'] eqn:Hx; simpl.
  - destruct (traverse f l) as [ys|e'']; simpl; [done|].
    intros [= ->]. destruct IH as (x' & ? & ?); [done|].
    exists x'. split; [by right|done].
  - intros [= ->]. exists x. split; [by left|done].
Qed.
End traverse.

(** ** The sort *)

Section sort.
Context {A : Type}.
Implicit Types (x pivot : float * A) (l a : list (float * A)).

(** Lists whose neighbours are related, cut and joined. *)
Lemma Sorted_app_inv (R : relation (float * A)) l1 l2 :
  Sorted R (l1 ++ l2) → Sorted R l1 ∧ Sorted R l2.
Proof.
  induction l1 as [|x l1 IH]; simpl; [by split; [constructor|]|].
  intros [Hs Hhd]%Sorted_inv. destruct (IH Hs) as [H1 H2].
  split; [|done]. constructor; [done|].
  destruct l1; [constructor|]. inversion Hhd. by constructor.
Qed.

Lemma Sorted_middle (R : relation (float * A)) l1 x l2 :
  Sorted R l1 → Sorted R l2 →
  (∀ e, last l1 = Some e → R e x) →
  (∀ e, head l2 = Some e → R x e) →
  Sorted R (l1 ++ x :: l2).
Proof.
  intros H1 H2 Hl Hr. induction H1 as [|y l1 H1 IH Hhd]; simpl.
  - constructor; [done|]. destruct l2; constructor. by apply Hr.
  - constructor.
    + apply IH. intros e He. apply Hl. destruct l1; [done|]. done.
    + destruct l1 as [|z l1]; simpl.
      * constructor. by apply Hl.
      * constructor. by inversion Hhd.
Qed.

(** Where the binary search ends: the item before the place, if there is
    one, has answered that [pivot] is not below it, and the item after the
    place, if there is one, that [pivot] is below it. *)
Lemma binary_insert_spec fuel pivot a :
  (length a ≤ fuel)%nat →
  ∃ a1 a2,
    a = a1 ++ a2
    ∧ Py.binary_insert fuel pivot a = a1 ++ pivot :: a2
    ∧ (∀ e, last a1 = Some e → (pivot.1 <? e.1)%float = false)
    ∧ (∀ e, head a2 = Some e → (pivot.1 <? e.1)%float = true).
Proof.
  revert a. induction fuel as [|fuel IH]; intros a Hlen.
  - destruct a; [|simpl in Hlen; lia]. by exists [], [].
  - simpl. pose proof (take_drop (Nat.div2 (length a)) a) as Ha.
    destruct (drop (Nat.div2 (length a)) a) as [|x back] eqn:Hd.
    + assert (a = []) as ->; [|by exists [], []].
      apply (f_equal length) in Hd. rewrite length_drop in Hd.
      destruct a as [|y a]; [done|]. simpl length in Hd.
      pose proof (Nat.lt_div2 (S (length a))). lia.
    + pose proof (f_equal length Ha) as Hl. rewrite length_app in Hl.
      simpl length in Hl.
      set (front := take (Nat.div2 (length a)) a) in *.
      destruct (pivot.1 <? x.1)%float eqn:Hlt.
      * destruct (IH front) as (a1 & a2 & E & -> & H1 & H2); [lia|].
        exists a1, (a2 ++ x :: back). rewrite <- Ha, E, <- !app_assoc.
        split; [done|]. split; [done|]. split; [done|].
        intros e. destruct a2; simpl; [by intros [= <-]|by apply H2].
      * destruct (IH back) as (a1 & a2 & E & -> & H1 & H2); [lia|].
        exists (front ++ x :: a1), a2. rewrite <- Ha, E, <- !app_assoc.
        split; [done|]. split; [done|]. split; [|done].
        intros e. rewrite last_app, last_cons.
        destruct (last a1) as [z|]; intros [= <-]; [by apply H1|done].
Qed.

Lemma binary_insert_Permutation pivot a :
  Py.binary_insert (length a) pivot a ≡ₚ a ++ [pivot].
Proof.
  destruct (binary_insert_spec (length a) pivot a) as (a1 & a2 & E & -> & _);
    [done|].
  subst a. rewrite <- app_assoc. f_equiv. by rewrite Permutation_app_comm.
Qed.

Lemma binarysort_Permutation a l : Py.binarysort a l ≡ₚ a ++ l.
Proof.
  revert a. induction l as [|x l IH]; intros a; simpl.
  - by rewrite app_nil_r.
  - rewrite IH, binary_insert_Permutation, <- app_assoc. done.
Qed.

Lemma list_sort_Permutation l : Py.list_sort l ≡ₚ l.
Proof.
  unfold Py.list_sort. destruct (Py.count_run l) as [n descending].
  rewrite binarysort_Permutation.
  trans (take n l ++ drop n l); [|by rewrite take_drop].
  apply Permutation_app; [|done].
  destruct descending; [apply reverse_Permutation|done].
Qed.

Lemma list_sort_reverse_Permutation l : Py.list_sort_reverse l ≡ₚ l.
Proof.
  unfold Py.list_sort_reverse.
  by rewrite reverse_Permutation, list_sort_Permutation, reverse_Permutation.
Qed.

(** *** What holds of every list, NaN keys included *)

Lemma ltb_asym (u v : float) : (u <? v)%float = true → (v <? u)%float = false.
Proof. intros H. by apply FloatFacts.leb_not_ltb, FloatFacts.ltb_leb. Qed.

Lemma Sorted_weaken (R1 R2 : relation (float * A)) l :
  (∀ x y, R1 x y → R2 x y) → Sorted R1 l → Sorted R2 l.
Proof.
  intros HR. induction 1 as [|x l _ IH Hhd]; constructor; [done|].
  destruct Hhd; constructor. by apply HR.
Qed.

(** The ascending sort leaves no item directly before one of a strictly
    smaller key, and the sort with [reverse=True] none directly before one
    of a strictly larger key.  [flip key_not_lt x y] says that the key of
    [y] is not below the key of [x]. *)
Lemma binary_insert_not_lt pivot a :
  Sorted (flip key_not_lt) a →
  Sorted (flip key_not_lt) (Py.binary_insert (length a) pivot a).
Proof.
  intros Ha.
  destruct (binary_insert_spec (length a) pivot a)
    as (a1 & a2 & E & -> & H1 & H2); [done|].
  subst a. apply Sorted_app_inv in Ha as [Ha1 Ha2].
  apply Sorted_middle; [done|done|exact H1|].
  intros e He. by apply ltb_asym, H2.
Qed.

Lemma binarysort_not_lt a l :
  Sorted (flip key_not_lt) a → Sorted (flip key_not_lt) (Py.binarysort a l).
Proof.
  revert a. induction l as [|x l IH]; intros a Ha; simpl; [done|].
  by apply IH, binary_insert_not_lt.
Qed.

Lemma run_ascending_Sorted x l :
  Sorted (flip key_not_lt) (x :: take (Py.run_ascending x l) l).
Proof.
  revert x. induction l as [|y l IH]; intros x; simpl.
  - by repeat constructor.
  - destruct (y.1 <? x.1)%float eqn:Hlt; simpl.
    + by repeat constructor.
    + constructor; [apply IH|by constructor].
Qed.

(** A descending run steps down every time. *)
Lemma run_descending_Sorted x l :
  Sorted (λ u v, (v.1 <? u.1)%float = true)
    (x :: take (Py.run_descending x l) l).
Proof.
  revert x. induction l as [|y l IH]; intros x; simpl.
  - by repeat constructor.
  - destruct (y.1 <? x.1)%float eqn:Hlt; simpl.
    + constructor; [apply IH|by constructor].
    + by repeat constructor.
Qed.

Lemma count_run_Sorted l :
  Sorted (flip key_not_lt)
    (if (Py.count_run l).2 then reverse (take (Py.count_run l).1 l)
     else take (Py.count_run l).1 l).
Proof.
  destruct l as [|x [|y l]]; simpl; [constructor|by repeat constructor|].
  destruct (y.1 <? x.1)%float eqn:Hlt; simpl.
  - apply (Sorted_reverse key_not_lt).
    eapply Sorted_weaken; [|constructor; [apply run_descending_Sorted|]].
    + intros u v Huv. by apply ltb_asym.
    + by constructor.
  - constructor; [apply run_ascending_Sorted|by constructor].
Qed.

Lemma list_sort_not_lt l : Sorted (flip key_not_lt) (Py.list_sort l).
Proof.
  unfold Py.list_sort. pose proof (count_run_Sorted l) as Hrun.
  destruct (Py.count_run l) as [n descending]. by apply binarysort_not_lt.
Qed.

Lemma list_sort_reverse_not_lt l : Sorted key_not_lt (Py.list_sort_reverse l).
Proof.
  apply (Sorted_reverse (flip key_not_lt)), list_sort_not_lt.
Qed.

(** A list in that order is one run, and the sort leaves it as it is. *)
Lemma run_ascending_all x l :
  Sorted (flip key_not_lt) (x :: l) → Py.run_ascending x l = length l.
Proof.
  revert x. induction l as [|y l IH]; intros x; [done|].
  intros [Hs Hhd]%Sorted_inv. simpl.
  apply HdRel_inv in Hhd. unfold flip, key_not_lt in Hhd. rewrite Hhd.
  by rewrite IH.
Qed.

Lemma list_sort_fixed l : Sorted (flip key_not_lt) l → Py.list_sort l = l.
Proof.
  intros Hl. unfold Py.list_sort.
  assert (Py.count_run l = (length l, false)) as ->.
  { destruct l as [|x [|y l]]; [done..|]. simpl.
    pose proof Hl as [Hs Hhd%HdRel_inv]%Sorted_inv.
    unfold flip, key_not_lt in Hhd. rewrite Hhd.
    by rewrite run_ascending_all. }
  by rewrite take_ge, drop_ge.
Qed.

Lemma list_sort_reverse_fixed l :
  Sorted key_not_lt l → Py.list_sort_reverse l = l.
Proof.
  intros Hl%Sorted_reverse. unfold Py.list_sort_reverse.
  by rewrite list_sort_fixed, reverse_involutive.
Qed.

(** *** What holds when no key is a NaN *)

(** Descending order. *)
Lemma list_sort_reverse_Sorted l :
  Forall (λ y, is_number y.1) l → Sorted key_ge (Py.list_sort_reverse l).
Proof.
  intros Hl. pose proof (list_sort_reverse_not_lt l) as Hs.
  rewrite <- (list_sort_reverse_Permutation l) in Hl.
  induction Hs as [|x d Hs IH Hhd]; [constructor|].
  apply Forall_cons in Hl as [Hx Hd]. constructor; [by apply IH|].
  destruct Hhd as [|y d Hxy]; constructor.
  apply Forall_cons in Hd as [Hy _]. by apply FloatFacts.not_ltb_leb.
Qed.

(** Stability: the items whose key equals [s] keep their order. *)
Lemma ascending_above pivot e a :
  is_number pivot.1 → Forall (λ y, is_number y.1) (e :: a) →
  Sorted (flip key_not_lt) (e :: a) →
  (pivot.1 <? e.1)%float = true →
  Forall (λ y, (pivot.1 <? y.1)%float = true) (e :: a).
Proof.
  intros Hp Ha Hs Hlt. revert e Ha Hs Hlt.
  induction a as [|y a IH]; intros e Ha Hs Hlt; [by repeat constructor|].
  constructor; [done|].
  apply Forall_cons in Ha as [He Ha]. pose proof Ha as [Hy _]%Forall_cons.
  apply Sorted_inv in Hs as [Hs Hhd%HdRel_inv]. apply IH; [done..|].
  destruct (pivot.1 <? y.1)%float eqn:Hpy; [done|].
  apply FloatFacts.not_ltb_leb in Hpy; [|done..].
  apply FloatFacts.not_ltb_leb in Hhd; [|done..].
  pose proof (FloatFacts.leb_trans _ _ _ Hhd Hpy) as Hle.
  apply FloatFacts.leb_not_ltb in Hle. congruence.
Qed.

Lemma filter_above (s : float) pivot a :
  (pivot.1 =? s)%float = true →
  Forall (λ y, (pivot.1 <? y.1)%float = true) a →
  filter (λ y, (y.1 =? s)%float = true) a = [].
Proof.
  intros Hp. induction 1 as [|y a Hy _ IH]; [done|].
  rewrite filter_cons_False; [done|]. intros Hs.
  rewrite (FloatFacts.eqb_not_ltb _ _ _ Hp Hs) in Hy. done.
Qed.

Lemma binary_insert_stable (s : float) pivot a :
  is_number pivot.1 → Forall (λ y, is_number y.1) a →
  Sorted (flip key_not_lt) a →
  filter (λ y, (y.1 =? s)%float = true) (Py.binary_insert (length a) pivot a)
  = filter (λ y, (y.1 =? s)%float = true) (a ++ [pivot]).
Proof.
  intros Hp Ha Hs.
  destruct (binary_insert_spec (length a) pivot a)
    as (a1 & a2 & E & -> & H1 & H2); [done|].
  subst a. rewrite !filter_app, filter_cons, <- app_assoc. f_equal.
  destruct (decide ((pivot.1 =? s)%float = true)) as [Hps|Hps].
  - rewrite filter_cons_True by done. simpl.
    destruct a2 as [|e a2]; [done|].
    rewrite (filter_above s pivot (e :: a2)); [done..|].
    apply Forall_app in Ha as [_ Ha]. apply Sorted_app_inv in Hs as [_ Hs].
    apply ascending_above; [done..|]. by apply H2.
  - rewrite filter_cons_False by done. simpl. by rewrite app_nil_r.
Qed.

Lemma binarysort_stable (s : float) a l :
  Forall (λ y, is_number y.1) (a ++ l) →
  Sorted (flip key_not_lt) a →
  filter (λ y, (y.1 =? s)%float = true) (Py.binarysort a l)
  = filter (λ y, (y.1 =? s)%float = true) (a ++ l).
Proof.
  revert a. induction l as [|x l IH]; intros a Hal Ha; simpl.
  - by rewrite app_nil_r.
  - pose proof Hal as [Hna [Hx Hl]%Forall_cons]%Forall_app.
    rewrite IH.
    + rewrite filter_app, binary_insert_stable by done.
      by rewrite <- filter_app, <- app_assoc.
    + apply Forall_app. split; [|done].
      rewrite binary_insert_Permutation. apply Forall_app. by repeat constructor.
    + by apply binary_insert_not_lt.
Qed.

(** A run that steps down every time holds no two equal keys, so
    reversing it exchanges none. *)
Lemma descending_below x l :
  Forall (λ y, is_number y.1) (x :: l) →
  Sorted (λ u v, (v.1 <? u.1)%float = true) (x :: l) →
  Forall (λ y, (y.1 <? x.1)%float = true) l.
Proof.
  revert x. induction l as [|y l IH]; intros x Hn Hs; [constructor|].
  apply Sorted_inv in Hs as [Hs Hxy%HdRel_inv].
  apply Forall_cons in Hn as [Hx Hn]. pose proof Hn as [Hy Hl]%Forall_cons.
  constructor; [done|].
  pose proof (IH y Hn Hs) as Hbelow.
  eapply Forall_impl; [apply Forall_and; split; [exact Hl|exact Hbelow]|].
  intros z [Hz Hzy]. simpl in Hz, Hzy.
  destruct (z.1 <? x.1)%float eqn:Hzx; [done|].
  apply FloatFacts.not_ltb_leb in Hzx; [|done..].
  pose proof (FloatFacts.leb_trans _ _ _ Hzx (FloatFacts.ltb_leb _ _ Hzy)) as Hle.
  apply FloatFacts.leb_not_ltb in Hle. congruence.
Qed.

Lemma filter_reverse_descending (s : float) l :
  Forall (λ y, is_number y.1) l →
  Sorted (λ u v, (v.1 <? u.1)%float = true) l →
  filter (λ y, (y.1 =? s)%float = true) (reverse l)
  = filter (λ y, (y.1 =? s)%float = true) l.
Proof.
  induction l as [|x l IH]; intros Hn Hs; [done|].
  pose proof (descending_below x l Hn Hs) as Hbelow.
  apply Sorted_inv in Hs as [Hs _]. pose proof Hn as [Hx Hl]%Forall_cons.
  rewrite reverse_cons, filter_app, IH, filter_cons by done.
  destruct (decide ((x.1 =? s)%float = true)) as [Hxs|Hxs].
  - rewrite filter_cons_True by done. simpl.
    assert (filter (λ y, (y.1 =? s)%float = true) l = []) as ->; [|done].
    clear -Hbelow Hxs. induction Hbelow as [|y l Hy _ IH]; [done|].
    rewrite filter_cons_False; [done|]. intros Hys.
    rewrite (FloatFacts.eqb_not_ltb _ _ _ Hys Hxs) in Hy. done.
  - rewrite filter_cons_False by done. simpl. by rewrite app_nil_r.
Qed.

Lemma list_sort_stable (s : float) l :
  Forall (λ y, is_number y.1) l →
  filter (λ y, (y.1 =? s)%float = true) (Py.list_sort l)
  = filter (λ y, (y.1 =? s)%float = true) l.
Proof.
  intros Hl. unfold Py.list_sort. pose proof (count_run_Sorted l) as Hrun.
  assert ((Py.count_run l).2 = true →
          Sorted (λ u v, (v.1 <? u.1)%float = true)
            (take (Py.count_run l).1 l)) as Hdesc.
  { destruct l as [|x [|y l']]; simpl; [done..|].
    destruct (y.1 <? x.1)%float eqn:Hlt; simpl; [|done]. intros _.
    constructor; [apply run_descending_Sorted|by constructor]. }
  destruct (Py.count_run l) as [n descending]. simpl in Hrun, Hdesc.
  rewrite <- (take_drop n l) in Hl. apply Forall_app in Hl as [Ht Hd].
  rewrite binarysort_stable; [|apply Forall_app; split; [|done]|done].
  - trans (filter (λ y, (y.1 =? s)%float = true) (take n l ++ drop n l));
      [|by rewrite take_drop].
    rewrite !filter_app. f_equal.
    destruct descending; [|done]. by apply filter_reverse_descending, Hdesc.
  - destruct descending; [|done]. by rewrite reverse_Permutation.
Qed.

Lemma list_sort_reverse_stable (s : float) l :
  Forall (λ y, is_number y.1) l →
  filter (λ y, (y.1 =? s)%float = true) (Py.list_sort_reverse l)
  = filter (λ y, (y.1 =? s)%float = true) l.
Proof.
  intros Hl. unfold Py.list_sort_reverse.
  rewrite filter_reverse, list_sort_stable, filter_reverse, reverse_involutive;
    [done|]. by rewrite reverse_Permutation.
Qed.
End sort.

(** [sorted(l, key=composite_score, reverse=True)]. *)
Section sorted_by_score.
Implicit Types (l ranked : list AntibodyCandidate).

Lemma traverse_decorated l keys :
  traverse composite_score l = Ok keys →
  decorated (zip keys l) ∧ length keys = length l.
Proof.
  rewrite traverse_Ok. induction 1 as [|c k l keys Hk _ [IH1 IH2]]; simpl.
  - split; [constructor|done].
  - split; [by constructor|by f_equal].
Qed.

Lemma decorated_filter s d :
  decorated d →
  filter (score_is s) d.*2 = (filter (λ y, (y.1 =? s)%float = true) d).*2.
Proof.
  induction 1 as [|[k c] d Hk _ IH]; [done|]. simpl in Hk.
  rewrite fmap_cons, !filter_cons, IH. simpl.
  destruct (decide (score_is s c)) as [(k' & Hk' & Hs)|Hn];
    destruct (decide ((k =? s)%float = true)) as [Hs'|Hn']; try done.
  - congruence.
  - destruct Hn. by exists k.
Qed.

Lemma decorated_Sorted d :
  decorated d → Sorted key_ge d → Sorted score_ge d.*2.
Proof.
  intros Hd Hs. induction Hs as [|[k c] d Hs IH Hhd]; [constructor|].
  apply Forall_cons in Hd as [Hk Hd]. simpl in Hk.
  rewrite fmap_cons. constructor; [by apply IH|].
  destruct Hhd as [|[k' c'] d' Hkk']; [constructor|].
  apply Forall_cons in Hd as [Hk' _]. simpl in Hk'.
  rewrite fmap_cons. constructor. by exists k, k'.
Qed.

Lemma sorted_reverse_Permutation l ranked :
  Py.sorted_reverse composite_score l = Ok ranked → ranked ≡ₚ l.
Proof.
  unfold Py.sorted_reverse.
  destruct (traverse composite_score l) as [keys|e] eqn:Hkeys; [|done].
  intros [= <-]. apply traverse_decorated in Hkeys as [_ Hlen].
  rewrite list_sort_reverse_Permutation. rewrite snd_zip by lia. done.
Qed.

Lemma zip_keys_numbers l keys :
  traverse composite_score l = Ok keys →
  Forall (λ c, ∀ k, composite_score c = Ok k → is_number k) l →
  Forall (λ y, is_number y.1) (zip keys l).
Proof.
  rewrite traverse_Ok. induction 1 as [|c k l keys Hk _ IH]; [constructor|].
  intros [Hc Hl]%Forall_cons. constructor; [by apply Hc|by apply IH].
Qed.

(** The sort is stable when no score is a NaN: candidates of equal score
    keep their order. *)
Lemma sorted_reverse_stable l ranked s :
  Forall (λ c, ∀ k, composite_score c = Ok k → is_number k) l →
  Py.sorted_reverse composite_score l = Ok ranked →
  filter (score_is s) ranked = filter (score_is s) l.
Proof.
  intros Hl. unfold Py.sorted_reverse.
  destruct (traverse composite_score l) as [keys|e] eqn:Hkeys; [|done].
  intros [= <-]. pose proof Hkeys as [Hd Hlen]%traverse_decorated.
  rewrite decorated_filter
    by (by unfold decorated; rewrite list_sort_reverse_Permutation).
  rewrite list_sort_reverse_stable by (by apply zip_keys_numbers).
  rewrite <- decorated_filter by done.
  rewrite snd_zip by lia. done.
Qed.

Lemma score_ge_trans a b c : score_ge a b → score_ge b c → score_ge a c.
Proof.
  intros (ka & kb & Ha & Hb & Hab) (kb' & kc & Hb' & Hc & Hbc).
  assert (kb' = kb) as -> by congruence. exists ka, kc.
  split; [done|]. split; [done|]. by eapply FloatFacts.leb_trans.
Qed.

(** Descending order: a candidate scores at least as much as every
    candidate after it. *)
Lemma sorted_reverse_Sorted l ranked :
  Forall scorable l →
  Py.sorted_reverse composite_score l = Ok ranked →
  StronglySorted score_ge ranked.
Proof.
  intros Hl. unfold Py.sorted_reverse.
  destruct (traverse composite_score l) as [keys|e] eqn:Hkeys; [|done].
  intros [= <-]. pose proof Hkeys as [Hd Hlen]%traverse_decorated.
  apply (@Sorted_StronglySorted _ _ score_ge_trans).
  apply decorated_Sorted;
    [by unfold decorated; rewrite list_sort_reverse_Permutation|].
  apply list_sort_reverse_Sorted. apply traverse_Ok in Hkeys.
  clear Hd Hlen. induction Hkeys as [|c k l keys Hk _ IH]; [constructor|].
  apply Forall_cons in Hl as [(k' & Hk' & Hnum) Hl]. simpl.
  constructor; [simpl; congruence|by apply IH].
Qed.

Lemma sorted_reverse_total l :
  Forall (λ c, ∃ k, composite_score c = Ok k) l →
  ∃ ranked, Py.sorted_reverse composite_score l = Ok ranked.
Proof.
  intros [keys Hkeys]%traverse_total. unfold Py.sorted_reverse.
  rewrite Hkeys. by eexists.
Qed.

Lemma sorted_reverse_nil : Py.sorted_reverse composite_score [] = Ok [].
Proof. reflexivity. Qed.

(** The score raises one exception only. *)
Lemma composite_score_Raise c e :
  composite_score c = Raise e → e = ZeroDivisionError.
Proof.
  unfold composite_score, Py.float_div.
  destruct (_ =? 0)%float; simpl; congruence.
Qed.

Lemma sorted_reverse_Raise l e :
  Py.sorted_reverse composite_score l = Raise e → e = ZeroDivisionError.
Proof.
  unfold Py.sorted_reverse.
  destruct (traverse composite_score l) as [keys|e'] eqn:Hkeys; [done|].
  intros [= ->]. apply traverse_Raise in Hkeys as (c & _ & Hc).
  by apply composite_score_Raise in Hc.
Qed.
End sorted_by_score.

(** ** Screening *)

Lemma filter_loop_spec config candidates filtered :
  filter_loop config candidates filtered
  = filtered ++ filter (λ c, passes_gate config c) candidates.
Proof.
  revert filtered.
  induction candidates as [|c cs IH]; intros filtered; simpl.
  - by rewrite app_nil_r.
  - rewrite filter_cons.
    destruct (decide (passes_gate config c)) as [Hp|Hp];
      unfold passes_gate in Hp;
      destruct (stability_score c <? _)%float;
      destruct (solubility_score c <? _)%float;
      destruct (_ <? immunogenicity_score c)%float;
      simpl in Hp; try done; try apply IH.
    rewrite IH, <- app_assoc. done.
Qed.

(** On numbers, the gate of the code is the gate of the specification. *)
Lemma passes_gate_survives config c :
  threshold_numbers config → gate_numbers c →
  passes_gate config c ↔ survives config c.
Proof.
  intros (Ht1 & Ht2 & Ht3) (Hc1 & Hc2 & Hc3). unfold passes_gate, survives.
  rewrite !andb_True, !negb_True, !Is_true_true. split.
  - intros [[H1 H2] H3]. apply not_true_is_false in H1, H2, H3.
    repeat split; by apply FloatFacts.not_ltb_leb.
  - intros (H1 & H2 & H3).
    rewrite !(FloatFacts.leb_not_ltb _ _ H1), !(FloatFacts.leb_not_ltb _ _ H2),
      !(FloatFacts.leb_not_ltb _ _ H3). done.
Qed.

Lemma filter_gate_survives config cs :
  threshold_numbers config → Forall gate_numbers cs →
  filter (λ c, passes_gate config c) cs = filter (survives config) cs.
Proof.
  intros Ht. induction 1 as [|c cs Hc _ IH]; [done|].
  rewrite !filter_cons, IH.
  pose proof (passes_gate_survives config c Ht Hc) as Hiff.
  destruct (decide (passes_gate config c)), (decide (survives config c));
    tauto || done.
Qed.

Lemma overflow_threshold_gt_1 : 1 < Py.overflow_threshold.
Proof. reflexivity. Qed.

Lemma int_true_div_zero a : Py.int_true_div a 0 = Raise ZeroDivisionError.
Proof. reflexivity. Qed.

Lemma int_true_div_Ok a b :
  b ≠ 0 → Z.abs a < Py.overflow_threshold * Z.abs b →
  ∃ q, Py.int_true_div a b = Ok q.
Proof.
  intros Hb Ha. unfold Py.int_true_div.
  destruct (Z.eqb_spec b 0) as [|_]; [done|].
  destruct (Z.leb_spec (Py.overflow_threshold * Z.abs b) (Z.abs a)); [lia|].
  by eexists.
Qed.

Lemma slice_to_nonneg {A} k (l : list A) :
  0 ≤ k → Py.slice_to k l = take (Z.to_nat k) l.
Proof. intros Hk. unfold Py.slice_to. by destruct (Z.leb_spec 0 k); [|lia]. Qed.

Lemma slice_to_prefix {A} k (l : list A) : Py.slice_to k l `prefix_of` l.
Proof. unfold Py.slice_to. destruct (0 <=? k); apply prefix_take. Qed.

(** What a call of [screen_antibodies] does, step by step. *)
Lemma screen_antibodies_run candidates config w :
  screen_antibodies candidates config w =
    let filtered := filter (λ c, passes_gate config c) candidates in
    match Py.sorted_reverse composite_score filtered with
    | Raise e => (Raise e, w)
    | Ok ranked =>
        match Py.int_true_div (Py.len filtered) (Py.len candidates) with
        | Raise e => (Raise e, w)
        | Ok ratio =>
            (Ok (Py.slice_to (top_k config) ranked),
             with_event w
               (Log INFO (Screened (Py.len candidates) (Py.len filtered)
                            (Py.format_f 1 (ratio * 100)%float))))
        end
    end.
Proof.
  unfold screen_antibodies. rewrite filter_loop_spec. simpl.
  unfold mbind, M_bind, lift.
  destruct (Py.sorted_reverse _ _) as [ranked|e]; [|done].
  destruct (Py.int_true_div _ _) as [ratio|e]; done.
Qed.

(** C3.  On the empty candidate list the pass rate of the log line divides
    by [len(candidates) = 0]: the call raises [ZeroDivisionError], whatever
    the configuration, and returns nothing. *)
Theorem screen_antibodies_empty_raises (config : Config) (w : world) :
  screen_antibodies [] config w = (Raise ZeroDivisionError, w).
Proof. reflexivity. Qed.

(** C2.  For a non-empty candidate list and a configuration with
    [0 <= top_k], where the thresholds and the gated scores are numbers and
    every survivor has a composite score that is defined and a number,
    [screen_antibodies] returns the first [top_k] elements of a ranking of
    the survivors: the ranking holds exactly the candidates with
    [stability_score >= stability_threshold], [solubility_score >=
    solubility_threshold] and [immunogenicity_score <=
    immunogenicity_threshold], in descending order of composite score.  The
    output has [min(top_k, number of survivors)] elements: never more than
    [top_k], and all the survivors when they are at most [top_k]. *)
Theorem screen_antibodies_top_k (candidates : list AntibodyCandidate)
    (config : Config) (w : world) :
  candidates ≠ [] →
  0 ≤ top_k config →
  threshold_numbers config →
  Forall gate_numbers candidates →
  Forall (λ c, survives config c → scorable c) candidates →
  let survivors := filter (survives config) candidates in
  ∃ ranked rate,
    let out := take (Z.to_nat (top_k config)) ranked in
    screen_antibodies candidates config w =
      (Ok out,
       with_event w
         (Log INFO (Screened (Py.len candidates) (Py.len survivors) rate)))
    ∧ ranked ≡ₚ survivors
    ∧ StronglySorted score_ge ranked
    ∧ Py.len out = Z.min (top_k config) (Py.len survivors)
    ∧ Py.len out ≤ top_k config
    ∧ (Py.len survivors ≤ top_k config → out = ranked).
Proof.
  intros Hne Hk Hthr Hnum Hscore survivors.
  rewrite screen_antibodies_run. cbv zeta.
  rewrite (filter_gate_survives _ _ Hthr Hnum). fold survivors.
  assert (Forall scorable survivors) as Hsurv.
  { apply Forall_forall. intros c [Hc Hin]%list_elem_of_filter.
    rewrite Forall_forall in Hscore. by apply Hscore. }
  destruct (sorted_reverse_total survivors) as [ranked Hranked].
  { eapply Forall_impl; [exact Hsurv|]. intros c (k & ? & _). by exists k. }
  pose proof (sorted_reverse_Permutation _ _ Hranked) as Hperm.
  assert (length survivors ≤ length candidates)%nat as Hlen
    by apply length_filter.
  destruct (int_true_div_Ok (Py.len survivors) (Py.len candidates))
    as [ratio Hratio].
  { unfold Py.len. destruct candidates; [done|]. simpl length. lia. }
  { pose proof overflow_threshold_gt_1. unfold Py.len.
    destruct candidates; [done|]. simpl length in *. nia. }
  rewrite Hranked, Hratio, slice_to_nonneg by done.
  exists ranked, (Py.format_f 1 (ratio * 100)%float). cbv zeta.
  assert (length ranked = length survivors) as Hlr by by rewrite Hperm.
  split; [done|]. split; [done|].
  split; [by eapply sorted_reverse_Sorted|].
  unfold Py.len. rewrite length_take, Hlr.
  split; [lia|]. split; [lia|].
  intros Hfew. apply take_ge. lia.
Qed.

(** An occurrence of [a] before an occurrence of [b] in a sublist lies
    before one in the list. *)
Lemma sublist_before {A} (a b : A) (l1 l2 l3 k : list A) :
  l1 ++ a :: l2 ++ b :: l3 `sublist_of` k →
  ∃ k1 k2 k3, k = k1 ++ a :: k2 ++ b :: k3.
Proof.
  intros (k1 & ka & -> & _ & (k2 & kb & -> & H)%sublist_cons_l)%sublist_app_l.
  apply sublist_app_l in H
    as (k3 & kc & -> & _ & (k4 & k5 & -> & _)%sublist_cons_l).
  exists (k1 ++ k2), (k3 ++ k4), k5. by rewrite <- !app_assoc.
Qed.

(** Conversely, [a] before [b] in a list gives two positions. *)
Lemma lookup_before {A} (a b : A) (k1 k2 k3 : list A) :
  ∃ i j, (i < j)%nat
         ∧ (k1 ++ a :: k2 ++ b :: k3) !! i = Some a
         ∧ (k1 ++ a :: k2 ++ b :: k3) !! j = Some b.
Proof.
  exists (length k1), (length (k1 ++ a :: k2)).
  split; [rewrite length_app; simpl; lia|].
  split; [by apply list_lookup_middle|].
  change (a :: k2 ++ b :: k3) with ((a :: k2) ++ b :: k3).
  rewrite app_assoc. by apply list_lookup_middle.
Qed.

(** C7, for scores that are numbers.  When no candidate that passes the
    thresholds has a NaN composite score, the ranking is stable.  For every
    score [s], the candidates of score [s] in the output are, in this
    order, the first of the survivors of score [s] as they come in the
    input list.  So when [a] comes before [b] in the output and both have
    the same composite score, [a] comes before [b] in the input list: two
    survivors with equal scores are never exchanged. *)
Theorem screen_antibodies_stable (candidates : list AntibodyCandidate)
    (config : Config) (w w' : world) (out : list AntibodyCandidate) :
  Forall (λ c, ∀ k, composite_score c = Ok k → is_number k)
    (filter (λ c, passes_gate config c) candidates) →
  screen_antibodies candidates config w = (Ok out, w') →
  (∀ s, filter (score_is s) out
        `prefix_of`
        filter (score_is s) (filter (λ c, passes_gate config c) candidates))
  ∧ (∀ s a b l1 l2 l3,
       out = l1 ++ a :: l2 ++ b :: l3 → score_is s a → score_is s b →
       ∃ k1 k2 k3, candidates = k1 ++ a :: k2 ++ b :: k3).
Proof.
  intros Hnum. rewrite screen_antibodies_run. cbv zeta.
  destruct (Py.sorted_reverse _ _) as [ranked|e] eqn:Hranked; [|done].
  destruct (Py.int_true_div _ _) as [ratio|e]; [|done].
  intros [= <- _].
  assert (∀ s, filter (score_is s) (Py.slice_to (top_k config) ranked)
               `prefix_of`
               filter (score_is s)
                 (filter (λ c, passes_gate config c) candidates)) as Hprefix.
  { intros s. rewrite <- (sorted_reverse_stable _ _ s Hnum Hranked).
    destruct (slice_to_prefix (top_k config) ranked) as [rest Hrest].
    rewrite Hrest at 2. rewrite filter_app. by eexists. }
  split; [exact Hprefix|].
  intros s a b l1 l2 l3 Hout Ha Hb.
  apply (sublist_before a b (filter (score_is s) l1) (filter (score_is s) l2)
           (filter (score_is s) l3)).
  trans (filter (score_is s) (filter (λ c, passes_gate config c) candidates));
    [|by etrans; apply sublist_filter].
  destruct (Hprefix s) as [rest ->]. rewrite Hout.
  rewrite filter_app, filter_cons_True, filter_app, filter_cons_True by done.
  by apply sublist_inserts_r.
Qed.

(** ** Loading *)

Lemma all_present_spec (record : raw_record) :
  forallb (λ field, bool_decide (is_Some (record !! field))) required_fields
    = true
  ↔ Forall (λ field, is_Some (record !! field)) required_fields.
Proof.
  rewrite forallb_forall, Forall_forall. split; intros H field Hin.
  - apply list_elem_of_In, H in Hin. by apply bool_decide_eq_true in Hin.
  - apply bool_decide_eq_true, H, list_elem_of_In, Hin.
Qed.

Lemma candidate_of_accepted record c : candidate_of record = Some c ↔ accepted record c.
Proof.
  unfold candidate_of, accepted. rewrite <- all_present_spec.
  destruct (forallb _ _); [|by split; [|intros []]].
  destruct (convert record) as [c'|e]; [|by split; [|intros (_ & ? & _)]].
  case_bool_decide as Hlen.
  - split; [by intros [= ->]|]. by intros (_ & [= ->] & _).
  - split; [done|]. by intros (_ & [= ->] & ?).
Qed.

(** What one round of the loop does. *)
Lemma load_record_run idx record candidates w :
  load_record idx record candidates w =
    if forallb (λ field, bool_decide (is_Some (record !! field)))
         required_fields
    then match convert record with
         | Ok c =>
             if bool_decide (String.length (sequence c) < 50)%nat
             then (Ok candidates,
                   with_event w (Log WARNING (SequenceTooShort (id c))))
             else (Ok (candidates ++ [c]), w)
         | Raise e =>
             if handled e
             then (Ok candidates, with_event w (Log ERROR (BadFormat idx e)))
             else (Raise e, w)
         end
    else (Ok candidates, with_event w (Log WARNING (MissingFields idx))).
Proof.
  unfold load_record, try_except.
  destruct (forallb _ _); simpl; [|done].
  unfold mbind, M_bind, lift. destruct (convert record) as [c|e]; simpl.
  - by case_bool_decide.
  - by destruct (handled e).
Qed.

(** A round either appends what the record yields, or lets an exception
    through that the except clause does not name. *)
Lemma load_record_cases idx record candidates w :
  (∃ w', load_record idx record candidates w
         = (Ok (candidates ++ option_list (candidate_of record)), w')
         ∧ heap w' = heap w)
  ∨ (∃ e, load_record idx record candidates w = (Raise e, w)
          ∧ handled e = false ∧ convert record = Raise e
          ∧ Forall (λ field, is_Some (record !! field)) required_fields).
Proof.
  rewrite load_record_run. unfold candidate_of.
  destruct (forallb _ _) eqn:Hall.
  - destruct (convert record) as [c|e] eqn:Hc.
    + left. repeat case_bool_decide; try lia; simpl;
        rewrite ?app_nil_r; by eexists.
    + destruct (handled e) eqn:He.
      * left. simpl. rewrite app_nil_r. by eexists.
      * right. exists e. by rewrite <- all_present_spec.
  - left. simpl. rewrite app_nil_r. by eexists.
Qed.

Lemma load_loop_Ok idx raw_data candidates w out w' :
  load_loop idx raw_data candidates w = (Ok out, w') →
  out = candidates ++ omap candidate_of raw_data.
Proof.
  revert idx candidates w.
  induction raw_data as [|record rest IH]; intros idx candidates w; simpl.
  - intros [= <- _]. by rewrite app_nil_r.
  - unfold mbind, M_bind.
    destruct (load_record_cases idx record candidates w)
      as [(w1 & -> & _)|(e & -> & _)]; [|done].
    intros ->%IH. rewrite <- app_assoc. by destruct (candidate_of record).
Qed.

Lemma load_loop_contained idx raw_data candidates w :
  Forall contained raw_data →
  ∃ w', load_loop idx raw_data candidates w
        = (Ok (candidates ++ omap candidate_of raw_data), w')
        ∧ heap w' = heap w.
Proof.
  intros Hall. revert idx candidates w.
  induction Hall as [|record rest Hrec _ IH]; intros idx candidates w; simpl.
  - exists w. by rewrite app_nil_r.
  - unfold mbind, M_bind.
    destruct (load_record_cases idx record candidates w)
      as [(w1 & -> & Hw1)|(e & _ & He & Hc & Hp)].
    + destruct (IH (S idx) (candidates ++ option_list (candidate_of record)) w1)
        as (w' & -> & Hw').
      exists w'. rewrite <- app_assoc. split; [|congruence].
      by destruct (candidate_of record).
    + apply Hrec in Hc; [congruence|done].
Qed.

Lemma load_antibody_data_run raw_data w :
  load_antibody_data raw_data w =
    match load_loop 0 raw_data [] w with
    | (Ok candidates, w') =>
        (Ok candidates,
         with_event w'
           (Log INFO (Loaded (Py.len candidates) (Py.len raw_data))))
    | (Raise e, w') => (Raise e, w')
    end.
Proof.
  unfold load_antibody_data, mbind, M_bind.
  by destruct (load_loop 0 raw_data [] w) as [[candidates|e] w'].
Qed.

Lemma length_omap_le {A B} (f : A → option B) l :
  (length (omap f l) ≤ length l)%nat.
Proof. induction l as [|x l IH]; csimpl; [done|]. destruct (f x); simpl; lia. Qed.

Lemma length_omap_eq {A B} (f : A → option B) l :
  length (omap f l) = length l ↔ Forall (λ x, is_Some (f x)) l.
Proof.
  induction l as [|x l IH]; csimpl; [by split; [constructor|]|].
  pose proof (length_omap_le f l). rewrite Forall_cons, <- IH.
  destruct (f x) eqn:Hx; simpl.
  - split; [intros [=]; eauto|intros [_ ->]; done].
  - split; [lia|]. intros [[? [=]] _].
Qed.

Lemma length_upper s : String.length (Py.upper s) = String.length s.
Proof. induction s as [|c s IH]; simpl; congruence. Qed.

(** The loader returns the candidates that the records yield, in the order
    of the input; so it never returns more candidates than it was given
    records, and as many exactly when every record passes the three
    checks. *)
Theorem load_antibody_data_valid_subset (raw_data : list raw_record)
    (w w' : world) (out : list AntibodyCandidate) :
  load_antibody_data raw_data w = (Ok out, w') →
  out = omap candidate_of raw_data
  ∧ (length out ≤ length raw_data)%nat
  ∧ (length out = length raw_data
     ↔ Forall (λ record, ∃ c, accepted record c) raw_data).
Proof.
  rewrite load_antibody_data_run.
  destruct (load_loop 0 raw_data [] w) as [[candidates|e] w1] eqn:Hloop;
    [|done].
  intros [= <- _]. apply load_loop_Ok in Hloop as ->. simpl.
  split; [done|]. split; [apply length_omap_le|].
  rewrite length_omap_eq. apply Forall_iff. intros record.
  unfold is_Some. by setoid_rewrite candidate_of_accepted.
Qed.

(** When the conversions raise nothing but [ValueError] and [TypeError],
    the loader returns: a malformed batch yields its valid subset. *)
Theorem load_antibody_data_contained (raw_data : list raw_record) (w : world) :
  Forall contained raw_data →
  ∃ w', load_antibody_data raw_data w = (Ok (omap candidate_of raw_data), w')
        ∧ heap w' = heap w.
Proof.
  intros Hall. rewrite load_antibody_data_run.
  destruct (load_loop_contained 0 raw_data [] w Hall) as (w1 & -> & Hw1).
  simpl. by eexists.
Qed.

(** C6, at the input where it fails.  A record whose stability score is an
    integer too large for a double makes [float] raise [OverflowError],
    which the except clause does not name: the exception leaves
    [load_antibody_data] and the whole batch is lost. *)
Theorem load_antibody_data_overflow_propagates :
  load_antibody_data
    [raw "AB_0001" SEQ (huge_int ("1" +:+ Py.zeros 400)) (number 70.0 "70.0")
       (number 25.0 "25.0") (number 0.5 "0.5")]
    empty_world
  = (Raise OverflowError, empty_world).
Proof. vm_compute. reflexivity. Qed.

(** C5, at the input where it fails.  The loader accepts a record whose
    binding affinity is [-1.0]; on the candidate it builds, the denominator
    [binding_affinity + 1] is zero and [composite_score] raises. *)
Theorem loader_accepts_zero_denominator :
  load_antibody_data
    [raw "AB_0001" SEQ (number 85.0 "85.0") (number 70.0 "70.0")
       (number 25.0 "25.0") (number (-1.0) "-1.0")]
    empty_world
  = (Ok [create_mock_candidate "0001" 85.0 70.0 25.0 (-1.0)],
     with_event empty_world (Log INFO (Loaded 1 1)))
  ∧ composite_score (create_mock_candidate "0001" 85.0 70.0 25.0 (-1.0))
    = Raise ZeroDivisionError.
Proof. split; vm_compute; reflexivity. Qed.

(** C9.  A single raw record with an id, a 100-character sequence,
    [stability_score=85.0], [solubility_score=70.0],
    [immunogenicity_score=25.0] and [binding_affinity=0.5] is loaded as
    exactly one candidate, with the id as given and the sequence in upper
    case. *)
Theorem load_single_valid_record (record : raw_record) (i s : string)
    (w : world) :
  has_text record "id" i →
  has_text record "sequence" s →
  String.length s = 100%nat →
  has_float record "stability_score" 85.0 →
  has_float record "solubility_score" 70.0 →
  has_float record "immunogenicity_score" 25.0 →
  has_float record "binding_affinity" 0.5 →
  load_antibody_data [record] w =
    (Ok [{| id := i; sequence := Py.upper s;
            stability_score := 85.0; solubility_score := 70.0;
            immunogenicity_score := 25.0; binding_affinity := 0.5 |}],
     with_event w (Log INFO (Loaded 1 1))).
Proof.
  intros (v1 & L1 & T1) (v2 & L2 & T2) Hlen (v3 & L3 & T3) (v4 & L4 & T4)
    (v5 & L5 & T5) (v6 & L6 & T6).
  rewrite load_antibody_data_run. simpl load_loop.
  unfold mbind at 1, M_bind. rewrite load_record_run.
  assert (forallb (λ field, bool_decide (is_Some (record !! field)))
            required_fields = true) as ->.
  { apply all_present_spec. unfold required_fields.
    repeat constructor; eauto. }
  assert (convert record
          = Ok {| id := i; sequence := Py.upper s;
                  stability_score := 85.0; solubility_score := 70.0;
                  immunogenicity_score := 25.0; binding_affinity := 0.5 |})
    as ->.
  { unfold convert, subscript. rewrite L1, L2, L3, L4, L5, L6. simpl.
    rewrite T1. simpl. rewrite T2. simpl. rewrite T3. simpl.
    rewrite T4. simpl. rewrite T5. simpl. rewrite T6. done. }
  simpl sequence. rewrite length_upper, Hlen.
  rewrite bool_decide_eq_false_2 by lia. done.
Qed.

(** ** The report *)

(** The heap only grows: no operation of the monad writes to an existing
    object. *)
Section frame.
Context {A B : Type}.

Lemma frame_ret (a : A) : frame (mret a).
Proof. by intros w. Qed.

Lemma frame_lift (r : result A) : frame (lift r).
Proof. by intros w. Qed.

Lemma frame_raise (e : exn) : frame (raise (A:=A) e).
Proof. by intros w. Qed.

Lemma frame_emit ev : frame (emit ev).
Proof. by intros w. Qed.

Lemma frame_read l : frame (read l).
Proof. by intros w. Qed.

Lemma frame_alloc items : frame (alloc items).
Proof.
  intros w. simpl. apply insert_subseteq, not_elem_of_dom, is_fresh.
Qed.

Lemma frame_bind (m : M A) (f : A → M B) :
  frame m → (∀ a, frame (f a)) → frame (m ≫= f).
Proof.
  intros Hm Hf w. unfold mbind, M_bind. specialize (Hm w).
  destruct (m w) as [[a|e] w1]; simpl in *; [|done].
  etrans; [exact Hm|apply Hf].
Qed.
End frame.

Lemma generate_report_frame E top_antibodies total_input output_path :
  frame (generate_report E top_antibodies total_input output_path).
Proof.
  unfold generate_report.
  apply frame_bind; [apply frame_read|intros given].
  apply frame_bind.
  { destruct given; [apply frame_ret|].
    apply frame_bind; [apply frame_lift|apply frame_alloc]. }
  intros top'. apply frame_bind; [apply frame_read|intros ranked].
  apply frame_bind; [apply frame_lift|intros ratio].
  apply frame_bind; [apply frame_lift|intros entries].
  apply frame_bind; [apply frame_lift|intros advice].
  apply frame_bind; [apply frame_emit|intros _].
  apply frame_bind; [|intros _; apply frame_ret].
  destruct (truthy_path output_path) as [path|]; [|apply frame_ret].
  destruct (open_fails E path); [apply frame_raise|].
  apply frame_bind; [apply frame_emit|intros _; apply frame_emit].
Qed.

Lemma maxsize_lt_overflow_threshold : maxsize < Py.overflow_threshold.
Proof. reflexivity. Qed.

Lemma make_entry_total ranked start :
  Forall (λ c, ∃ k, composite_score c = Ok k) ranked →
  ∃ entries,
    traverse make_entry (Py.enumerate start ranked) = Ok entries
    ∧ fields <$> entries = ranked
    ∧ rank <$> entries
      = (λ i : nat, start + Z.of_nat i + 1) <$> seq 0 (length ranked).
Proof.
  intros Hall. revert start.
  induction Hall as [|c ranked [k Hk] _ IH]; intros start; simpl.
  - by eexists.
  - destruct (IH (start + 1)) as (entries & -> & Hf & Hr).
    unfold make_entry at 1. simpl. rewrite Hk. simpl.
    eexists. split; [done|]. csimpl. rewrite Hf, Hr. split; [done|].
    f_equal; [lia|]. rewrite <- fmap_S_seq, <- list_fmap_compose.
    apply list_fmap_ext. intros _ i _. simpl. lia.
Qed.

Lemma recommend_total l :
  Forall (λ c, ∃ k, composite_score c = Ok k) l →
  ∃ advice, traverse recommend l = Ok advice.
Proof.
  intros Hall. apply traverse_total.
  eapply Forall_impl; [exact Hall|]. intros c [k Hk].
  unfold recommend. rewrite Hk. by eexists.
Qed.

(** What a call of [generate_report] without an output path does when
    nothing raises. *)
Lemma generate_report_run E top total w given ranked ratio entries advice :
  heap w !! top = Some given →
  Py.sorted_reverse composite_score given = Ok ranked →
  Py.int_true_div (Py.len ranked) total = Ok ratio →
  traverse make_entry (Py.enumerate 0 ranked) = Ok entries →
  traverse recommend (take 3 ranked) = Ok advice →
  ∃ w',
    generate_report E top total None w =
      (Ok {| timestamp := now E;
             summary := {| total_input := total;
                           passed_count := Py.len ranked;
                           pass_rate :=
                             Py.format_f 1 (ratio * 100)%float +:+ "%" |};
             top_candidates := entries;
             recommendations := advice |}, w')
    ∧ heap w ⊆ heap w'.
Proof.
  intros Hgiven Hsort Hratio Hentries Hadvice.
  pose proof (generate_report_frame E top total None w) as Hframe.
  revert Hframe. unfold generate_report, mbind, M_bind, read.
  rewrite Hgiven. cbv beta iota delta [from_option Datatypes.id].
  destruct given as [|c given'].
  - injection Hsort as <-. injection Hentries as <-. injection Hadvice as <-.
    simpl. rewrite Hgiven. simpl. unfold lift. rewrite Hratio. simpl.
    intros Hframe. by eexists.
  - unfold lift. rewrite Hsort. simpl. rewrite lookup_insert_eq. simpl.
    rewrite Hratio, Hentries, Hadvice. simpl.
    intros Hframe. by eexists.
Qed.

(** C4, at the input where it fails.  With [total_input = 0] the call
    raises [ZeroDivisionError], the arithmetic exception of the division
    itself, whatever the list holds; nothing is printed or written, and no
    guard turns the zero into an error of the function's own. *)
Theorem generate_report_zero_total (E : env) (top_antibodies : loc)
    (output_path : option string) (w : world) :
  (generate_report E top_antibodies 0 output_path w).1
    = Raise ZeroDivisionError
  ∧ trace (generate_report E top_antibodies 0 output_path w).2 = trace w.
Proof.
  unfold generate_report, mbind, M_bind, read, lift.
  cbv beta iota delta [from_option Datatypes.id].
  destruct (heap w !! top_antibodies) as [[|c given]|]; try done.
  destruct (Py.sorted_reverse composite_score (c :: given)) as [ranked|e]
    eqn:Hsort; simpl.
  - done.
  - by apply sorted_reverse_Raise in Hsort as ->.
Qed.

(** C10.  [generate_report] leaves the list of its caller as it is: after
    the call, whether it returned or raised, the reference that was passed
    still points to the same candidates in the same order.  The sorted list
    is a new object. *)
Theorem generate_report_keeps_list (E : env) (top_antibodies : loc)
    (total_input : Z) (output_path : option string) (w : world)
    (given : list AntibodyCandidate) :
  heap w !! top_antibodies = Some given →
  heap (generate_report E top_antibodies total_input output_path w).2
    !! top_antibodies = Some given.
Proof.
  intros Hgiven. eapply lookup_weaken; [exact Hgiven|].
  apply generate_report_frame.
Qed.

(** C8.  For [total_input > 0] and a list (of at most [sys.maxsize] items)
    whose candidates all have a composite score that is defined and a
    number, two calls of [generate_report] on the same list, at any two
    times, return reports with the same summary and the same
    [top_candidates]; the listing holds the candidates of the list in
    descending order of composite score, whatever their order in the list,
    with the ranks 1, 2, ..., n. *)
Theorem generate_report_idempotent (E1 E2 : env) (top_antibodies : loc)
    (total_input : Z) (w : world) (given : list AntibodyCandidate) :
  heap w !! top_antibodies = Some given →
  0 < total_input →
  Py.len given ≤ maxsize →
  Forall scorable given →
  ∃ r1 w1 r2 w2,
    generate_report E1 top_antibodies total_input None w = (Ok r1, w1)
    ∧ generate_report E2 top_antibodies total_input None w1 = (Ok r2, w2)
    ∧ summary r1 = summary r2
    ∧ top_candidates r1 = top_candidates r2
    ∧ rank <$> top_candidates r1 = ranks (length given)
    ∧ fields <$> top_candidates r1 ≡ₚ given
    ∧ StronglySorted score_ge (fields <$> top_candidates r1).
Proof.
  intros Hgiven Htotal Hsize Hscorable.
  assert (Forall (λ c, ∃ k, composite_score c = Ok k) given) as Hdefined.
  { eapply Forall_impl; [exact Hscorable|]. intros c (k & ? & _). by exists k. }
  destruct (sorted_reverse_total given Hdefined) as [ranked Hsort].
  pose proof (sorted_reverse_Permutation _ _ Hsort) as Hperm.
  rewrite <- Hperm in Hdefined.
  destruct (make_entry_total ranked 0 Hdefined) as (entries & Hentries & Hf & Hr).
  destruct (recommend_total (take 3 ranked)) as [advice Hadvice];
    [by apply Forall_take|].
  assert (length ranked = length given) as Hlen by by rewrite Hperm.
  destruct (int_true_div_Ok (Py.len ranked) total_input) as [ratio Hratio];
    [lia| |].
  { pose proof maxsize_lt_overflow_threshold. unfold Py.len in *.
    rewrite Hlen. nia. }
  destruct (generate_report_run E1 top_antibodies total_input w given ranked
              ratio entries advice) as (w1 & Hrun1 & Hw1); try done.
  destruct (generate_report_run E2 top_antibodies total_input w1 given ranked
              ratio entries advice) as (w2 & Hrun2 & Hw2); try done.
  { by eapply lookup_weaken. }
  eexists _, w1, _, w2. split; [exact Hrun1|]. split; [exact Hrun2|]. simpl.
  split; [done|]. split; [done|]. split; [|split].
  - rewrite Hr, Hlen. unfold ranks. apply list_fmap_ext. intros _ i _. lia.
  - by rewrite Hf.
  - rewrite Hf. by eapply sorted_reverse_Sorted.
Qed.

(** ** The theorems at concrete inputs *)

(** C2 fails as it is stated.  With [top_k = -1] the slice drops the last
    of the four ranked survivors and returns three candidates, more than
    [top_k]; and a candidate whose stability score is a NaN passes the
    filter although [stability_score >= stability_threshold] is false. *)
Lemma screen_antibodies_top_k_counterexample :
  (∃ rate,
     screen_antibodies top_k_batch (test_config (-1)) empty_world
     = (Ok [create_mock_candidate "0002" 90.0 70.0 25.0 0.5;
            create_mock_candidate "0004" 88.0 70.0 25.0 0.5;
            create_mock_candidate "0003" 85.0 70.0 25.0 0.5],
        with_event empty_world (Log INFO (Screened 4 4 rate)))
     ∧ ¬ (3 ≤ top_k (test_config (-1))))
  ∧ (∃ out w',
       screen_antibodies nan_batch (test_config 5) empty_world = (Ok out, w')
       ∧ create_mock_candidate "0002" nan 70.0 25.0 0.5 ∈ out
       ∧ ¬ survives (test_config 5)
             (create_mock_candidate "0002" nan 70.0 25.0 0.5)).
Proof.
  split.
  - eexists. split; [vm_compute; reflexivity|]. simpl. lia.
  - eexists _, _. split; [vm_compute; reflexivity|]. split.
    + apply list_elem_of_In. simpl. tauto.
    + intros [H _]. vm_compute in H. discriminate.
Qed.

Lemma top_k_batch_scorable : Forall scorable top_k_batch.
Proof.
  repeat constructor; eexists; (split; [vm_compute; reflexivity|reflexivity]).
Qed.

(** C2 on the candidates of [test_screen_top_k], with [top_k = 2]. *)
Lemma screen_antibodies_top_k_witness :
  let survivors := filter (survives (test_config 2)) top_k_batch in
  ∃ ranked rate,
    let out := take (Z.to_nat (top_k (test_config 2))) ranked in
    screen_antibodies top_k_batch (test_config 2) empty_world =
      (Ok out,
       with_event empty_world
         (Log INFO (Screened (Py.len top_k_batch) (Py.len survivors) rate)))
    ∧ ranked ≡ₚ survivors
    ∧ StronglySorted score_ge ranked
    ∧ Py.len out = Z.min (top_k (test_config 2)) (Py.len survivors)
    ∧ Py.len out ≤ top_k (test_config 2)
    ∧ (Py.len survivors ≤ top_k (test_config 2) → out = ranked).
Proof.
  apply (screen_antibodies_top_k top_k_batch (test_config 2) empty_world).
  - discriminate.
  - simpl. lia.
  - repeat split; reflexivity.
  - repeat constructor; reflexivity.
  - eapply Forall_impl; [exact top_k_batch_scorable|]. tauto.
Defined.

(** C7 fails as it is stated.  The third of seven candidates has a NaN
    stability score: it passes the thresholds ([nan < 75.0] is false) and
    its composite score is a NaN, which compares false with every score.
    The binary search of the sort then puts AB_0001 behind AB_0005: the
    ranking has AB_0002 before AB_0001, two candidates of the same score
    that come in the other order in the input. *)
Lemma screen_antibodies_stable_counterexample :
  let c1 := create_mock_candidate "0001" 80.0 70.0 25.0 0.5 in
  let c2 := create_mock_candidate "0002" 80.0 70.0 25.0 0.5 in
  let out := [c2;
              create_mock_candidate "0003" nan 70.0 25.0 0.5;
              create_mock_candidate "0005" 90.0 70.0 25.0 0.5;
              c1;
              create_mock_candidate "0004" 80.0 70.0 25.0 0.5;
              create_mock_candidate "0006" 80.0 70.0 25.0 0.5;
              create_mock_candidate "0007" 80.0 70.0 25.0 0.5] in
  screen_antibodies nan_tie_batch (test_config 7) empty_world
  = (Ok out, with_event empty_world (Log INFO (Screened 7 7 "100.0")))
  ∧ (∃ s, score_is s c1 ∧ score_is s c2)
  ∧ (∃ k3, nan_tie_batch = [] ++ c1 :: [] ++ c2 :: k3)
  ∧ ¬ (∀ s, filter (score_is s) out
            `prefix_of`
            filter (score_is s)
              (filter (λ c, passes_gate (test_config 7) c) nan_tie_batch))
  ∧ ¬ (∀ s a b l1 l2 l3,
         out = l1 ++ a :: l2 ++ b :: l3 → score_is s a → score_is s b →
         ∃ k1 k2 k3, nan_tie_batch = k1 ++ a :: k2 ++ b :: k3).
Proof.
  intros c1 c2 out. split; [vm_compute; reflexivity|].
  assert (score_is 73.583333333333343 c1) as H1.
  { eexists. split; [vm_compute; reflexivity|reflexivity]. }
  assert (score_is 73.583333333333343 c2) as H2.
  { eexists. split; [vm_compute; reflexivity|reflexivity]. }
  split; [by eexists|]. split; [by eexists|]. split.
  - intros H. destruct (H 73.583333333333343%float) as [rest Hrest].
    vm_compute in Hrest. discriminate Hrest.
  - intros H.
    destruct (H _ c2 c1 [] (take 2 (drop 1 out)) (drop 4 out)
                eq_refl H2 H1) as (k1 & k2 & k3 & Hk).
    destruct (lookup_before c2 c1 k1 k2 k3) as (i & j & Hij & Hi & Hj).
    rewrite <- Hk in Hi, Hj.
    destruct i as [|[|i]]; [vm_compute in Hi; discriminate Hi| |].
    + destruct j as [|[|j]]; [lia..|].
      do 5 (destruct j as [|j]; [vm_compute in Hj; discriminate Hj|]).
      vm_compute in Hj. discriminate Hj.
    + do 5 (destruct i as [|i]; [vm_compute in Hi; discriminate Hi|]).
      vm_compute in Hi. discriminate Hi.
Qed.

(** C7 on three candidates of which the first and the last tie. *)
Lemma screen_antibodies_stable_witness :
  let out := [create_mock_candidate "0002" 90.0 70.0 25.0 0.5;
              create_mock_candidate "0001" 80.0 70.0 25.0 0.5;
              create_mock_candidate "0003" 80.0 70.0 25.0 0.5] in
  (∀ s, filter (score_is s) out
        `prefix_of`
        filter (score_is s)
          (filter (λ c, passes_gate (test_config 5) c) tied_batch))
  ∧ (∀ s a b l1 l2 l3,
       out = l1 ++ a :: l2 ++ b :: l3 → score_is s a → score_is s b →
       ∃ k1 k2 k3, tied_batch = k1 ++ a :: k2 ++ b :: k3).
Proof.
  apply (screen_antibodies_stable tied_batch (test_config 5) empty_world
           (with_event empty_world (Log INFO (Screened 3 3 "100.0")))).
  - repeat constructor; intros k Hk; vm_compute in Hk; injection Hk as <-;
      reflexivity.
  - vm_compute. reflexivity.
Defined.

(** C8 fails as it is stated.  A candidate whose stability score is a NaN
    has a NaN composite score, which compares false with every score: the
    listing comes out in the order of the input, with a smaller score at
    rank 1 than at rank 3. *)
Lemma generate_report_idempotent_counterexample :
  ∃ r w',
    generate_report (env_at "t") 1%positive 3 None (world_with nan_batch)
    = (Ok r, w')
    ∧ fields <$> top_candidates r = nan_batch
    ∧ ¬ Sorted score_ge (fields <$> top_candidates r)
    ∧ ∃ k1 k3,
        composite_score (create_mock_candidate "0001" 80.0 70.0 25.0 0.5)
        = Ok k1
        ∧ composite_score (create_mock_candidate "0003" 90.0 70.0 25.0 0.5)
          = Ok k3
        ∧ (k1 <? k3)%float = true.
Proof.
  eexists _, _. split; [vm_compute; reflexivity|].
  split; [reflexivity|]. split.
  - intros [_ Hhd]%Sorted_inv.
    inversion Hhd as [|? ? (ka & kb & Ha & Hb & Hle)]; subst.
    vm_compute in Ha, Hb. injection Ha as <-. injection Hb as <-.
    vm_compute in Hle. discriminate.
  - eexists _, _. split; [vm_compute; reflexivity|].
    split; [vm_compute; reflexivity|]. reflexivity.
Qed.

(** C8 on the candidates of [test_screen_top_k], at two different times. *)
Lemma generate_report_idempotent_witness :
  ∃ r1 w1 r2 w2,
    generate_report (env_at "2025-01-01T09:00:00") 1%positive 100 None
      (world_with top_k_batch) = (Ok r1, w1)
    ∧ generate_report (env_at "2025-01-01T09:00:01") 1%positive 100 None w1
      = (Ok r2, w2)
    ∧ summary r1 = summary r2
    ∧ top_candidates r1 = top_candidates r2
    ∧ rank <$> top_candidates r1 = ranks (length top_k_batch)
    ∧ fields <$> top_candidates r1 ≡ₚ top_k_batch
    ∧ StronglySorted score_ge (fields <$> top_candidates r1).
Proof.
  apply (generate_report_idempotent _ _ 1%positive 100
           (world_with top_k_batch) top_k_batch).
  - reflexivity.
  - lia.
  - vm_compute. discriminate.
  - exact top_k_batch_scorable.
Defined.

(** C9 on a record of the test suite, with a sequence of 100 characters. *)
Lemma load_single_valid_record_witness :
  load_antibody_data
    [raw "AB_0001" seq100 (number 85.0 "85.0") (number 70.0 "70.0")
       (number 25.0 "25.0") (number 0.5 "0.5")] empty_world
  = (Ok [{| id := "AB_0001"; sequence := Py.upper seq100;
            stability_score := 85.0; solubility_score := 70.0;
            immunogenicity_score := 25.0; binding_affinity := 0.5 |}],
     with_event empty_world (Log INFO (Loaded 1 1))).
Proof.
  apply load_single_valid_record;
    try (eexists; split; [vm_compute; reflexivity|reflexivity]).
  reflexivity.
Defined.

(** C10 on a call that sorts, prints and writes a file. *)
Lemma generate_report_keeps_list_witness :
  heap (generate_report (env_at "t") 1%positive 100 (Some "report.json")
          (world_with top_k_batch)).2 !! 1%positive
  = Some top_k_batch.
Proof.
  apply (generate_report_keeps_list _ 1%positive 100 (Some "report.json")
           (world_with top_k_batch) top_k_batch).
  reflexivity.
Defined.

(** The valid subset of the four records of the loader's tests. *)
Lemma load_antibody_data_valid_subset_witness :
  let out := [create_mock_candidate "0001" 85.0 70.0 25.0 0.5] in
  out = omap candidate_of mixed_batch
  ∧ (length out ≤ length mixed_batch)%nat
  ∧ (length out = length mixed_batch
     ↔ Forall (λ record, ∃ c, accepted record c) mixed_batch).
Proof.
  eapply (load_antibody_data_valid_subset mixed_batch empty_world).
  vm_compute. reflexivity.
Defined.

Lemma load_antibody_data_contained_witness :
  ∃ w', load_antibody_data mixed_batch empty_world
        = (Ok (omap candidate_of mixed_batch), w')
        ∧ heap w' = heap empty_world.
Proof.
  apply load_antibody_data_contained.
  repeat (apply Forall_cons; split); [..|apply Forall_nil_2];
    intros Hpresent e He; vm_compute in He;
    first [discriminate
          |by injection He as <-
          |apply all_present_spec in Hpresent; vm_compute in Hpresent;
           discriminate].
Defined.

(** * Further properties of the code *)

(** ** The sort, again *)

(** Sorting a list by score, and then any initial part of the result once
    more, changes nothing. *)
Lemma sorted_reverse_prefix_fixed l ranked p :
  Py.sorted_reverse composite_score l = Ok ranked →
  p `prefix_of` ranked →
  Py.sorted_reverse composite_score p = Ok p.
Proof.
  unfold Py.sorted_reverse.
  destruct (traverse composite_score l) as [keys|e] eqn:Hkeys; [|done].
  intros [= <-] [rest Hrest].
  apply traverse_decorated in Hkeys as [Hd _].
  assert (decorated (Py.list_sort_reverse (zip keys l))) as Hd'
    by (unfold decorated; by rewrite list_sort_reverse_Permutation).
  pose proof (list_sort_reverse_not_lt (zip keys l)) as Hs.
  set (d := Py.list_sort_reverse (zip keys l)) in *. clearbody d.
  clear Hd keys l.
  assert (∃ d1 d2, d = d1 ++ d2 ∧ d1.*2 = p) as (d1 & d2 & -> & <-).
  { exists (take (length p) d), (drop (length p) d).
    split; [by rewrite take_drop|].
    rewrite fmap_take, Hrest. apply take_app_length. }
  apply Sorted_app_inv in Hs as [Hs _]. apply Forall_app in Hd' as [Hd1 _].
  assert (traverse composite_score d1.*2 = Ok d1.*1) as ->.
  { apply traverse_Ok. clear Hs Hrest.
    induction Hd1 as [|[k c] d1 Hk _ IH]; csimpl; by constructor. }
  simpl. by rewrite zip_fst_snd, list_sort_reverse_fixed.
Qed.

(** ** Screening, again *)

(** The score is defined exactly when the binding affinity is not [-1]. *)
Lemma composite_score_defined c :
  (binding_affinity c =? -1)%float = false ↔ ∃ k, composite_score c = Ok k.
Proof.
  unfold composite_score, Py.float_div.
  rewrite FloatFacts.add_one_eqb_zero.
  destruct (binding_affinity c =? -1)%float; simpl.
  - split; [done|]. by intros [k ?].
  - split; [by eexists|done].
Qed.

Lemma traverse_Exists_Raise {A B} (f : A → result B) l :
  Exists (λ x, ∃ e, f x = Raise e) l → ∃ e, traverse f l = Raise e.
Proof.
  induction l as [|x l IH]; [by inversion 1|]. simpl.
  intros [[e He]|Hl]%Exists_cons.
  - rewrite He. by eexists.
  - destruct (f x) as [y|e]; simpl; [|by eexists].
    destruct (IH Hl) as [e ->]. by eexists.
Qed.

Lemma filter_all {A} (P : A → Prop) `{!∀ x, Decision (P x)} (l : list A) :
  Forall P l → filter P l = l.
Proof.
  induction 1 as [|x l Hx _ IH]; [done|].
  by rewrite filter_cons_True, IH.
Qed.

Lemma length_slice_to {A} k (l : list A) :
  Py.len (Py.slice_to k l)
  = if 0 <=? k then Z.min k (Py.len l) else Z.max 0 (Py.len l + k).
Proof.
  unfold Py.slice_to, Py.len. destruct (Z.leb_spec 0 k);
    rewrite length_take; lia.
Qed.

(** What a call that returns has done. *)
Lemma screen_antibodies_Ok candidates config w out w' :
  screen_antibodies candidates config w = (Ok out, w') →
  ∃ ranked ratio,
    Py.sorted_reverse composite_score
      (filter (λ c, passes_gate config c) candidates) = Ok ranked
    ∧ out = Py.slice_to (top_k config) ranked
    ∧ w' = with_event w
             (Log INFO
                (Screened (Py.len candidates)
                   (Py.len (filter (λ c, passes_gate config c) candidates))
                   (Py.format_f 1 (ratio * 100)%float))).
Proof.
  rewrite screen_antibodies_run. cbv zeta.
  destruct (Py.sorted_reverse _ _) as [ranked|e]; [|done].
  destruct (Py.int_true_div _ _) as [ratio|e]; [|done].
  intros [= <- <-]. by exists ranked, ratio.
Qed.

Lemma slice_of_ranking candidates config ranked :
  Py.sorted_reverse composite_score
    (filter (λ c, passes_gate config c) candidates) = Ok ranked →
  Py.slice_to (top_k config) ranked
  ⊆+ filter (λ c, passes_gate config c) candidates.
Proof.
  intros Hranked%sorted_reverse_Permutation.
  rewrite <- Hranked. apply sublist_submseteq.
  destruct (slice_to_prefix (top_k config) ranked) as [rest Hrest].
  rewrite Hrest at 2. by apply sublist_inserts_r.
Qed.

Lemma slice_passes_gate candidates config ranked :
  Py.sorted_reverse composite_score
    (filter (λ c, passes_gate config c) candidates) = Ok ranked →
  Forall (λ c, passes_gate config c) (Py.slice_to (top_k config) ranked).
Proof.
  intros Hsub%slice_of_ranking. apply Forall_forall. intros c Hc.
  eapply elem_of_submseteq in Hc; [|exact Hsub].
  by apply list_elem_of_filter in Hc as [? _].
Qed.

(** The screen returns candidates of its input, each at most as often as
    the input holds it, and only candidates that pass the three tests; it
    leaves the heap as it is. *)
Theorem screen_antibodies_sound (candidates : list AntibodyCandidate)
    (config : Config) (w w' : world) (out : list AntibodyCandidate) :
  screen_antibodies candidates config w = (Ok out, w') →
  out ⊆+ candidates
  ∧ Forall (λ c, passes_gate config c) out
  ∧ heap w' = heap w.
Proof.
  intros (ranked & ratio & Hranked & -> & ->)%screen_antibodies_Ok.
  split; [|split; [by apply (slice_passes_gate candidates)|done]].
  etrans; [by apply slice_of_ranking|].
  apply sublist_submseteq, sublist_filter.
Qed.

(** The screen raises in two cases, the empty input and a candidate that
    passes the tests with [binding_affinity = -1]; the exception is
    [ZeroDivisionError] and nothing is logged.  On every other input it
    returns and logs one line. *)
Theorem screen_antibodies_raises_iff (candidates : list AntibodyCandidate)
    (config : Config) (w : world) :
  let undefined c :=
    passes_gate config c ∧ (binding_affinity c =? -1)%float = true in
  (candidates = [] ∨ Exists undefined candidates →
   screen_antibodies candidates config w = (Raise ZeroDivisionError, w))
  ∧ (¬ (candidates = [] ∨ Exists undefined candidates) →
     ∃ out rate,
       screen_antibodies candidates config w
       = (Ok out,
          with_event w
            (Log INFO
               (Screened (Py.len candidates)
                  (Py.len (filter (λ c, passes_gate config c) candidates))
                  rate)))).
Proof.
  intros undefined. rewrite screen_antibodies_run. cbv zeta. split.
  - intros [->|Hex]; [done|].
    destruct (Py.sorted_reverse _ _) as [ranked|e] eqn:Hsort.
    + exfalso. unfold Py.sorted_reverse in Hsort.
      destruct (traverse_Exists_Raise composite_score
                  (filter (λ c, passes_gate config c) candidates))
        as [e He]; [|by rewrite He in Hsort].
      apply Exists_exists in Hex as (c & Hin & Hgate & Haff).
      apply Exists_exists. exists c. split; [by apply list_elem_of_filter|].
      destruct (composite_score c) as [k|e] eqn:Hc; [|by eexists].
      assert (∃ k, composite_score c = Ok k) as Hdef by by eexists.
      apply composite_score_defined in Hdef. congruence.
    + by apply sorted_reverse_Raise in Hsort as ->.
  - intros Hok. apply Decidable.not_or in Hok as [Hne Hall].
    destruct (sorted_reverse_total
                (filter (λ c, passes_gate config c) candidates))
      as [ranked ->].
    { apply Forall_forall. intros c [Hgate Hin]%list_elem_of_filter.
      apply composite_score_defined.
      destruct (binding_affinity c =? -1)%float eqn:Haff; [|done].
      destruct Hall. apply Exists_exists. by exists c. }
    pose proof (length_filter (λ c, passes_gate config c) candidates).
    destruct (int_true_div_Ok
                (Py.len (filter (λ c, passes_gate config c) candidates))
                (Py.len candidates)) as [ratio ->].
    { unfold Py.len. destruct candidates; [done|]. simpl length. lia. }
    { pose proof overflow_threshold_gt_1. unfold Py.len.
      destruct candidates; [done|]. simpl length in *. nia. }
    by eexists _, _.
Qed.

(** The number of results for any [top_k]: [min(top_k, n)] of the [n]
    survivors when [top_k >= 0], and [max(0, n + top_k)] when [top_k] is
    negative, since the slice then drops the last [-top_k] of the
    ranking. *)
Theorem screen_antibodies_length (candidates : list AntibodyCandidate)
    (config : Config) (w w' : world) (out : list AntibodyCandidate) :
  screen_antibodies candidates config w = (Ok out, w') →
  let n := Py.len (filter (λ c, passes_gate config c) candidates) in
  Py.len out
  = if 0 <=? top_k config then Z.min (top_k config) n
    else Z.max 0 (n + top_k config).
Proof.
  intros (ranked & ratio & Hranked & -> & ->)%screen_antibodies_Ok n.
  rewrite length_slice_to. subst n. unfold Py.len.
  apply sorted_reverse_Permutation, Permutation_length in Hranked.
  by rewrite Hranked.
Qed.

(** Screening is idempotent for [top_k >= 0]: a result that is not empty,
    screened again with the same configuration, comes back as it is; an
    empty result makes the second call raise. *)
Theorem screen_antibodies_idempotent (candidates : list AntibodyCandidate)
    (config : Config) (w w' w1 : world) (out : list AntibodyCandidate) :
  screen_antibodies candidates config w = (Ok out, w') →
  0 ≤ top_k config →
  (out ≠ [] →
   ∃ rate, screen_antibodies out config w1
           = (Ok out,
              with_event w1
                (Log INFO (Screened (Py.len out) (Py.len out) rate))))
  ∧ (out = [] →
     screen_antibodies out config w1 = (Raise ZeroDivisionError, w1)).
Proof.
  intros Hscreen Hk. split; [|by intros ->].
  intros Hne.
  apply screen_antibodies_Ok in Hscreen
    as (ranked & ratio & Hranked & Hout & _).
  pose proof (slice_passes_gate _ _ _ Hranked) as Hgate.
  rewrite <- Hout in Hgate.
  rewrite screen_antibodies_run. cbv zeta. rewrite (filter_all _ _ Hgate).
  rewrite (sorted_reverse_prefix_fixed _ ranked out Hranked)
    by (rewrite Hout; apply slice_to_prefix).
  destruct (int_true_div_Ok (Py.len out) (Py.len out)) as [r ->].
  { unfold Py.len. destruct out; [done|]. simpl length. lia. }
  { pose proof overflow_threshold_gt_1. unfold Py.len.
    destruct out; [done|]. simpl length. nia. }
  eexists. f_equal. f_equal.
  rewrite slice_to_nonneg by done. apply take_ge.
  rewrite Hout, slice_to_nonneg, length_take by done. lia.
Qed.

(** ** The report, again *)

(** What a call of [generate_report] does, step by step, on a reference
    that points to [given]. *)
Lemma generate_report_steps E top total output_path w given :
  heap w !! top = Some given →
  generate_report E top total output_path w =
    match Py.sorted_reverse composite_score given with
    | Raise e => (Raise e, w)
    | Ok ranked =>
        let w1 :=
          match given with
          | [] => w
          | _ :: _ => {| heap := <[fresh (dom (heap w)) := ranked]> (heap w);
                         trace := trace w |}
          end in
        match Py.int_true_div (Py.len ranked) total with
        | Raise e => (Raise e, w1)
        | Ok ratio =>
            match traverse make_entry (Py.enumerate 0 ranked) with
            | Raise e => (Raise e, w1)
            | Ok entries =>
                match traverse recommend (take 3 ranked) with
                | Raise e => (Raise e, w1)
                | Ok advice =>
                    let report :=
                      {| timestamp := now E;
                         summary :=
                           {| total_input := total;
                              passed_count := Py.len ranked;
                              pass_rate :=
                                Py.format_f 1 (ratio * 100)%float +:+ "%" |};
                         top_candidates := entries;
                         recommendations := advice |} in
                    let w2 := with_event w1 (Console report) in
                    match truthy_path output_path with
                    | None => (Ok report, w2)
                    | Some path =>
                        if open_fails E path then (Raise OSError, w2)
                        else (Ok report,
                              with_event
                                (with_event w2 (FileWrite path report))
                                (Log INFO (ReportSaved path)))
                    end
                end
            end
        end
    end.
Proof.
  intros Hgiven. unfold generate_report, mbind, M_bind, read, lift.
  rewrite Hgiven. cbv beta iota delta [from_option Datatypes.id].
  destruct given as [|c given'].
  - simpl. rewrite Hgiven. simpl.
    destruct (Py.int_true_div _ _) as [ratio|e]; [|done]. simpl.
    destruct (truthy_path output_path) as [path|]; [|reflexivity].
    destruct (open_fails E path); reflexivity.
  - destruct (Py.sorted_reverse composite_score (c :: given'))
      as [ranked|e]; [|done].
    simpl. rewrite lookup_insert_eq. simpl.
    destruct (Py.int_true_div _ _) as [ratio|e]; [|done].
    destruct (traverse make_entry _) as [entries|e]; [|done].
    destruct (traverse recommend _) as [advice|e]; [|done]. simpl.
    destruct (truthy_path output_path) as [path|]; [|reflexivity].
    destruct (open_fails E path); reflexivity.
Qed.

Lemma make_entry_Ok ranked start entries :
  traverse make_entry (Py.enumerate start ranked) = Ok entries →
  fields <$> entries = ranked
  ∧ rank <$> entries
    = (λ i : nat, start + Z.of_nat i + 1) <$> seq 0 (length ranked)
  ∧ Forall (λ e, ∃ k, composite_score (fields e) = Ok k
                      ∧ rounded_score e = Py.round k 2) entries.
Proof.
  revert start entries. induction ranked as [|c ranked IH];
    intros start entries; simpl.
  - by intros [= <-].
  - destruct (traverse make_entry _) as [entries'|e'] eqn:Hrest;
      unfold make_entry; simpl;
      destruct (composite_score c) as [k|e] eqn:Hk; simpl; try done.
    intros [= <-]. destruct (IH _ _ Hrest) as (Hf & Hr & Hall).
    csimpl. rewrite Hf, Hr. split; [done|]. split.
    + f_equal; [lia|]. rewrite <- fmap_S_seq, <- list_fmap_compose.
      apply list_fmap_ext. intros _ i _. simpl. lia.
    + constructor; [by exists k|done].
Qed.

Lemma traverse_length {A B} (f : A → result B) l ys :
  traverse f l = Ok ys → length ys = length l.
Proof. intros H%traverse_Ok. symmetry. by eapply Forall2_length. Qed.

(** What a call that returns has built. *)
Lemma generate_report_Ok E top total output_path w given r w' :
  heap w !! top = Some given →
  generate_report E top total output_path w = (Ok r, w') →
  ∃ ranked ratio,
    Py.sorted_reverse composite_score given = Ok ranked
    ∧ Py.int_true_div (Py.len ranked) total = Ok ratio
    ∧ traverse make_entry (Py.enumerate 0 ranked) = Ok (top_candidates r)
    ∧ traverse recommend (take 3 ranked) = Ok (recommendations r)
    ∧ timestamp r = now E
    ∧ summary r = {| total_input := total; passed_count := Py.len ranked;
                     pass_rate := Py.format_f 1 (ratio * 100)%float +:+ "%" |}.
Proof.
  intros Hgiven. rewrite (generate_report_steps _ _ _ _ _ _ Hgiven).
  destruct (Py.sorted_reverse _ _) as [ranked|e] eqn:H1; [|done].
  destruct (Py.int_true_div _ _) as [ratio|e] eqn:H2; [|done].
  destruct (traverse make_entry _) as [entries|e] eqn:H3; [|done].
  destruct (traverse recommend _) as [advice|e] eqn:H4; [|done]. cbv zeta.
  destruct (truthy_path output_path) as [path|].
  - destruct (open_fails E path); [done|].
    intros [= <- _]. by exists ranked, ratio.
  - intros [= <- _]. by exists ranked, ratio.
Qed.


Lemma sorted_reverse_defined l ranked :
  Py.sorted_reverse composite_score l = Ok ranked →
  Forall (λ c, ∃ k, composite_score c = Ok k) l.
Proof.
  unfold Py.sorted_reverse.
  destruct (traverse composite_score l) as [keys|e] eqn:Hkeys; [|done].
  intros _. apply traverse_Ok in Hkeys.
  induction Hkeys; constructor; eauto.
Qed.

(** The report is consistent with the list it was given: [passed_count]
    and the number of entries are the length of the list, the entries hold
    the candidates of the list with the ranks 1, 2, ..., n and the score of
    each rounded to two decimals, [total_input] is the argument as it was
    passed, and there is one recommendation for each of the first three
    entries. *)
Theorem generate_report_consistent (E : env) (top_antibodies : loc)
    (total : Z) (output_path : option string) (w w' : world)
    (given : list AntibodyCandidate) (r : Report) :
  heap w !! top_antibodies = Some given →
  generate_report E top_antibodies total output_path w = (Ok r, w') →
  timestamp r = now E
  ∧ total_input (summary r) = total
  ∧ passed_count (summary r) = Py.len given
  ∧ length (top_candidates r) = length given
  ∧ rank <$> top_candidates r = ranks (length given)
  ∧ fields <$> top_candidates r ≡ₚ given
  ∧ Forall (λ e, ∃ k, composite_score (fields e) = Ok k
                      ∧ rounded_score e = Py.round k 2) (top_candidates r)
  ∧ length (recommendations r) = (3 `min` length given)%nat.
Proof.
  intros Hgiven Hrun.
  destruct (generate_report_Ok _ _ _ _ _ _ _ _ Hgiven Hrun)
    as (ranked & ratio & Hsort & _ & Hentries & Hadvice & Htime & Hsum).
  apply sorted_reverse_Permutation in Hsort.
  pose proof (Permutation_length Hsort) as Hlen.
  apply make_entry_Ok in Hentries as (Hf & Hr & Hall).
  apply traverse_length in Hadvice. rewrite length_take in Hadvice.
  rewrite Hsum. simpl. unfold Py.len. rewrite Hlen.
  split_and!; try done.
  - by rewrite <- (length_fmap fields), Hf.
  - rewrite Hr, Hlen. unfold ranks. apply list_fmap_ext. intros _ i _. lia.
  - by rewrite Hf.
  - rewrite Hadvice, Hlen. done.
Qed.

(** When the call returns, the console has shown the returned report; a
    path that is given and not empty has then received this same report,
    with a log line after it; a path that is [None] or the empty string is
    no path, and nothing is written. *)
Theorem generate_report_persists (E : env) (top_antibodies : loc)
    (total : Z) (output_path : option string) (w w' : world)
    (given : list AntibodyCandidate) (r : Report) :
  heap w !! top_antibodies = Some given →
  generate_report E top_antibodies total output_path w = (Ok r, w') →
  trace w' =
    trace w ++ Console r ::
      match output_path with
      | None | Some "" => []
      | Some path => [FileWrite path r; Log INFO (ReportSaved path)]
      end.
Proof.
  intros Hgiven. rewrite (generate_report_steps _ _ _ _ _ _ Hgiven).
  destruct (Py.sorted_reverse _ _) as [ranked|e]; [|done].
  destruct (Py.int_true_div _ _) as [ratio|e]; [|done].
  destruct (traverse make_entry _) as [entries|e]; [|done].
  destruct (traverse recommend _) as [advice|e]; [|done]. cbv zeta.
  assert (∀ w0 : world,
            trace match given with
                  | [] => w0
                  | _ :: _ =>
                      {| heap := <[fresh (dom (heap w0)) := ranked]> (heap w0);
                         trace := trace w0 |}
                  end = trace w0) as Htrace by (by destruct given).
  destruct output_path as [[|a path]|]; simpl.
  - intros [= <- <-]. simpl. by rewrite Htrace.
  - destruct (open_fails E _); [done|]. intros [= <- <-]. simpl.
    rewrite Htrace, <- !app_assoc. done.
  - intros [= <- <-]. simpl. by rewrite Htrace.
Qed.


(** The report raises [ZeroDivisionError] when [total_input] is zero or a
    candidate has [binding_affinity = -1]; otherwise, given a destination
    that can be written or none at all, it returns. *)
Theorem generate_report_returns_iff (E : env) (top_antibodies : loc)
    (total : Z) (output_path : option string) (w : world)
    (given : list AntibodyCandidate) :
  heap w !! top_antibodies = Some given →
  Py.len given ≤ maxsize →
  (total = 0 ∨ Exists (λ c, (binding_affinity c =? -1)%float = true) given →
   (generate_report E top_antibodies total output_path w).1
   = Raise ZeroDivisionError)
  ∧ (total ≠ 0 →
     Forall (λ c, (binding_affinity c =? -1)%float = false) given →
     (∀ path, truthy_path output_path = Some path →
              open_fails E path = false) →
     ∃ r w', generate_report E top_antibodies total output_path w
             = (Ok r, w')).
Proof.
  intros Hgiven Hsize. rewrite (generate_report_steps _ _ _ _ _ _ Hgiven).
  split.
  - intros Hbad.
    destruct (Py.sorted_reverse composite_score given) as [ranked|e]
      eqn:Hsort; [|by apply sorted_reverse_Raise in Hsort as ->].
    destruct Hbad as [->|Hex]; [done|]. exfalso.
    apply sorted_reverse_defined in Hsort.
    apply Exists_exists in Hex as (c & Hin & Haff).
    rewrite Forall_forall in Hsort. apply Hsort in Hin.
    apply composite_score_defined in Hin. congruence.
  - intros Htotal Hdef Hopen.
    assert (Forall (λ c, ∃ k, composite_score c = Ok k) given) as Hdefined.
    { eapply Forall_impl; [exact Hdef|]. intros c.
      apply composite_score_defined. }
    destruct (sorted_reverse_total given Hdefined) as [ranked Hsort].
    pose proof (sorted_reverse_Permutation _ _ Hsort) as Hperm.
    rewrite <- Hperm in Hdefined. rewrite Hsort.
    destruct (make_entry_total ranked 0 Hdefined) as (entries & -> & _).
    destruct (recommend_total (take 3 ranked)) as [advice ->];
      [by apply Forall_take|].
    destruct (int_true_div_Ok (Py.len ranked) total) as [ratio ->]; [done| |].
    { pose proof maxsize_lt_overflow_threshold. unfold Py.len in *.
      rewrite (Permutation_length Hperm). nia. }
    cbv zeta. destruct (truthy_path output_path) as [path|]; [|by eexists _, _].
    rewrite (Hopen path eq_refl). by eexists _, _.
Qed.

(** The sort of the report changes nothing on a list that comes from
    [screen_antibodies]: the report lists the candidates in the order the
    screen returned them. *)
Theorem generate_report_after_screen (E : env) (candidates : list AntibodyCandidate)
    (config : Config) (w0 w1 : world) (out : list AntibodyCandidate)
    (top_antibodies : loc) (total : Z) (output_path : option string)
    (w w' : world) (r : Report) :
  screen_antibodies candidates config w0 = (Ok out, w1) →
  heap w !! top_antibodies = Some out →
  generate_report E top_antibodies total output_path w = (Ok r, w') →
  fields <$> top_candidates r = out.
Proof.
  intros (ranked & ratio & Hranked & Hout & _)%screen_antibodies_Ok Hheap Hrun.
  destruct (generate_report_Ok _ _ _ _ _ _ _ _ Hheap Hrun)
    as (ranked' & _ & Hsort & _ & Hentries & _).
  rewrite (sorted_reverse_prefix_fixed _ ranked out Hranked) in Hsort
    by (rewrite Hout; apply slice_to_prefix).
  injection Hsort as <-. by apply make_entry_Ok in Hentries as [? _].
Qed.

(** When no two different candidates of the list tie, the report does not
    depend on the order of the list: any rearrangement gives the same
    summary, the same listing and the same recommendations. *)
Theorem generate_report_order_independent (E : env) (top1 top2 : loc)
    (total : Z) (w1 w1' w2 w2' : world)
    (given1 given2 : list AntibodyCandidate) (r1 r2 : Report) :
  heap w1 !! top1 = Some given1 →
  heap w2 !! top2 = Some given2 →
  given1 ≡ₚ given2 →
  Forall scorable given1 →
  (∀ a b, a ∈ given1 → b ∈ given1 → score_ge a b → score_ge b a → a = b) →
  generate_report E top1 total None w1 = (Ok r1, w1') →
  generate_report E top2 total None w2 = (Ok r2, w2') →
  r1 = r2.
Proof.
  intros H1 H2 Hperm Hscorable Hties Hrun1 Hrun2.
  destruct (generate_report_Ok _ _ _ _ _ _ _ _ H1 Hrun1)
    as (ranked1 & ratio1 & Hs1 & Hd1 & He1 & Ha1 & Ht1 & Hsum1).
  destruct (generate_report_Ok _ _ _ _ _ _ _ _ H2 Hrun2)
    as (ranked2 & ratio2 & Hs2 & Hd2 & He2 & Ha2 & Ht2 & Hsum2).
  assert (ranked1 = ranked2) as <-.
  { pose proof (sorted_reverse_Permutation _ _ Hs1) as Hp1.
    pose proof (sorted_reverse_Permutation _ _ Hs2) as Hp2.
    apply (StronglySorted_unique_strong score_ge).
    - intros a b Ha Hb. apply Hties; [by rewrite <- Hp1|].
      by rewrite Hperm, <- Hp2.
    - by eapply sorted_reverse_Sorted.
    - eapply sorted_reverse_Sorted; [|done]. by rewrite <- Hperm.
    - by rewrite Hp1, Hp2. }
  destruct r1 as [t1 s1 c1 a1], r2 as [t2 s2 c2 a2]. simpl in *.
  congruence.
Qed.

(** ** Loading, again *)

Lemma ascii_upper_idemp c : Py.ascii_upper (Py.ascii_upper c) = Py.ascii_upper c.
Proof. by destruct c as [[] [] [] [] [] [] [] []]. Qed.

Lemma upper_idemp s : Py.upper (Py.upper s) = Py.upper s.
Proof. induction s as [|c s IH]; simpl; [done|]. by rewrite ascii_upper_idemp, IH. Qed.

(** What a conversion that succeeds has read. *)
Lemma convert_Ok record c :
  convert record = Ok c →
  has_text record "id" (id c)
  ∧ (∃ s, has_text record "sequence" s ∧ sequence c = Py.upper s)
  ∧ has_float record "stability_score" (stability_score c)
  ∧ has_float record "solubility_score" (solubility_score c)
  ∧ has_float record "immunogenicity_score" (immunogenicity_score c)
  ∧ has_float record "binding_affinity" (binding_affinity c).
Proof.
  unfold convert, subscript, has_text, has_float.
  destruct (record !! "id") as [v1|]; simpl; [|done].
  destruct (to_str v1) as [i|] eqn:H1; simpl; [|done].
  destruct (record !! "sequence") as [v2|]; simpl; [|done].
  destruct (to_str v2) as [s|] eqn:H2; simpl; [|done].
  destruct (record !! "stability_score") as [v3|]; simpl; [|done].
  destruct (to_float v3) as [x3|] eqn:H3; simpl; [|done].
  destruct (record !! "solubility_score") as [v4|]; simpl; [|done].
  destruct (to_float v4) as [x4|] eqn:H4; simpl; [|done].
  destruct (record !! "immunogenicity_score") as [v5|]; simpl; [|done].
  destruct (to_float v5) as [x5|] eqn:H5; simpl; [|done].
  destruct (record !! "binding_affinity") as [v6|]; simpl; [|done].
  destruct (to_float v6) as [x6|] eqn:H6; simpl; [|done].
  intros [= <-]. simpl. split_and!; eauto.
Qed.

(** What a call of the loader that returns has done. *)
Lemma load_antibody_data_Ok raw_data w out w' :
  load_antibody_data raw_data w = (Ok out, w') →
  out = omap candidate_of raw_data
  ∧ ∃ w1, load_loop 0 raw_data [] w = (Ok out, w1)
          ∧ w' = with_event w1
                   (Log INFO (Loaded (Py.len out) (Py.len raw_data))).
Proof.
  rewrite load_antibody_data_run.
  destruct (load_loop 0 raw_data [] w) as [[candidates|e] w1] eqn:Hloop;
    [|done].
  intros [= <- <-]. split; [by apply load_loop_Ok in Hloop|by exists w1].
Qed.

(** Every candidate that the loader returns comes from a record of the
    batch: its id is [str] of the record's id, its sequence is [str] of the
    record's sequence in upper case, and its scores are [float] of the
    record's scores.  Its sequence has at least 50 characters and is in
    upper case. *)
Theorem load_antibody_data_provenance (raw_data : list raw_record)
    (w w' : world) (out : list AntibodyCandidate) :
  load_antibody_data raw_data w = (Ok out, w') →
  Forall (λ c,
    (50 ≤ String.length (sequence c))%nat
    ∧ Py.upper (sequence c) = sequence c
    ∧ ∃ record, record ∈ raw_data
        ∧ has_text record "id" (id c)
        ∧ (∃ s, has_text record "sequence" s ∧ sequence c = Py.upper s)
        ∧ has_float record "stability_score" (stability_score c)
        ∧ has_float record "solubility_score" (solubility_score c)
        ∧ has_float record "immunogenicity_score" (immunogenicity_score c)
        ∧ has_float record "binding_affinity" (binding_affinity c)) out.
Proof.
  intros [-> _]%load_antibody_data_Ok. apply Forall_forall.
  intros c (record & Hin & (_ & Hc & Hlen)%candidate_of_accepted)%list_elem_of_omap.
  pose proof (convert_Ok _ _ Hc) as (Hid & (s & Hs & Hseq) & Hscores).
  split; [done|]. split; [by rewrite Hseq, upper_idemp|].
  exists record. split; [done|]. split; [done|]. split; [by exists s|done].
Qed.

(** A round that returns either appends the candidate of the record and
    logs nothing, or keeps the list and logs one warning or error. *)
Lemma load_record_Ok idx record candidates w out w' :
  load_record idx record candidates w = (Ok out, w') →
  contained record
  ∧ ((∃ c, candidate_of record = Some c ∧ out = candidates ++ [c] ∧ w' = w)
     ∨ (candidate_of record = None ∧ out = candidates
        ∧ ∃ lvl m, lvl ≠ INFO ∧ w' = with_event w (Log lvl m))).
Proof.
  rewrite load_record_run. unfold candidate_of, contained.
  rewrite <- all_present_spec.
  destruct (forallb _ _) eqn:Hall.
  - destruct (convert record) as [c|e] eqn:Hc.
    + case_bool_decide as Hlen; intros [= <- <-]; (split; [done|]).
      * right. rewrite bool_decide_eq_false_2 by lia.
        split; [done|]. split; [done|]. by eexists WARNING, _.
      * left. rewrite bool_decide_eq_true_2 by lia. by exists c.
    + destruct (handled e) eqn:He; [|done]. intros [= <- <-]. split.
      * intros _ e' [= <-]. done.
      * right. split; [done|]. split; [done|]. by eexists ERROR, _.
  - intros [= <- <-]. split; [done|]. right.
    split; [done|]. split; [done|]. by eexists WARNING, _.
Qed.

Lemma load_loop_trace idx raw_data candidates w out w' :
  load_loop idx raw_data candidates w = (Ok out, w') →
  Forall contained raw_data
  ∧ ∃ events,
      w' = {| heap := heap w; trace := trace w ++ events |}
      ∧ (length events + length (omap candidate_of raw_data)
         = length raw_data)%nat
      ∧ Forall (λ ev, ∃ lvl m, lvl ≠ INFO ∧ ev = Log lvl m) events.
Proof.
  revert idx candidates w.
  induction raw_data as [|record rest IH]; intros idx candidates w; simpl.
  - intros [= <- <-]. split; [constructor|]. exists [].
    rewrite app_nil_r. by destruct w.
  - unfold mbind, M_bind.
    destruct (load_record idx record candidates w) as [[c1|e] w1] eqn:Hrec;
      [|done].
    intros (Hrest & events & -> & Hlen & Hev)%IH.
    apply load_record_Ok in Hrec
      as (Hcont & [(c & Hc & -> & ->)|(Hc & -> & lvl & m & Hlvl & ->)]).
    + split; [by constructor|]. exists events. csimpl. rewrite Hc. csimpl.
      split; [done|]. split; [lia|done].
    + split; [by constructor|]. exists (Log lvl m :: events). csimpl.
      rewrite Hc. csimpl. rewrite <- app_assoc. split; [done|].
      split; [lia|]. constructor; [by exists lvl, m|done].
Qed.

(** The loader accounts for every record: when it returns it has logged
    one warning or error for each record it dropped, and last the count of
    accepted records against the size of the batch.  It leaves the heap as
    it is. *)
Theorem load_antibody_data_accounts (raw_data : list raw_record)
    (w w' : world) (out : list AntibodyCandidate) :
  load_antibody_data raw_data w = (Ok out, w') →
  heap w' = heap w
  ∧ ∃ events,
      trace w' = trace w ++ events
                 ++ [Log INFO (Loaded (Py.len out) (Py.len raw_data))]
      ∧ (length events + length out = length raw_data)%nat
      ∧ Forall (λ ev, ∃ lvl m, lvl ≠ INFO ∧ ev = Log lvl m) events.
Proof.
  intros (-> & w1 & (_ & events & -> & Hlen & Hev)%load_loop_trace & ->)
    %load_antibody_data_Ok.
  split; [done|]. exists events. simpl. by rewrite <- app_assoc.
Qed.

Lemma load_loop_Raise idx raw_data candidates w e w' :
  load_loop idx raw_data candidates w = (Raise e, w') →
  ∃ before record after,
    raw_data = before ++ record :: after
    ∧ Forall contained before
    ∧ Forall (λ field, is_Some (record !! field)) required_fields
    ∧ convert record = Raise e
    ∧ handled e = false.
Proof.
  revert idx candidates w.
  induction raw_data as [|record rest IH]; intros idx candidates w; simpl;
    [done|].
  unfold mbind, M_bind.
  destruct (load_record idx record candidates w) as [[c1|e1] w1] eqn:Hrec.
  - intros (before & r & after & -> & Hb & Hr)%IH.
    apply load_record_Ok in Hrec as [Hcont _].
    exists (record :: before), r, after. split; [done|].
    split; [by constructor|done].
  - intros [= -> ->].
    destruct (load_record_cases idx record candidates w)
      as [(w2 & Hok & _)|(e2 & Hraise & He & Hc & Hp)]; [congruence|].
    assert (e2 = e) as -> by congruence.
    by exists [], record, rest.
Qed.

(** When the loader raises, one record of the batch has all six fields
    and a conversion that raises this exception, which is none of those the
    except clause names; every record before it was handled, and what was
    loaded from them is lost. *)
Theorem load_antibody_data_raises (raw_data : list raw_record)
    (w w' : world) (e : exn) :
  load_antibody_data raw_data w = (Raise e, w') →
  ∃ before record after,
    raw_data = before ++ record :: after
    ∧ Forall contained before
    ∧ Forall (λ field, is_Some (record !! field)) required_fields
    ∧ convert record = Raise e
    ∧ handled e = false.
Proof.
  rewrite load_antibody_data_run.
  destruct (load_loop 0 raw_data [] w) as [[candidates|e1] w1] eqn:Hloop;
    [done|].
  intros [= -> ->]. by eapply load_loop_Raise.
Qed.

(** Loading is compatible with splitting a batch: the loader returns on
    two batches put end to end exactly when it returns on each, and then
    with the two results put end to end. *)
Theorem load_antibody_data_app (a b : list raw_record) (w : world)
    (out : list AntibodyCandidate) :
  (∃ w', load_antibody_data (a ++ b) w = (Ok out, w'))
  ↔ ∃ out_a out_b wa wb,
      load_antibody_data a w = (Ok out_a, wa)
      ∧ load_antibody_data b w = (Ok out_b, wb)
      ∧ out = out_a ++ out_b.
Proof.
  split.
  - intros [w' (-> & w1 & [Hcont _]%load_loop_trace & _)%load_antibody_data_Ok].
    apply Forall_app in Hcont as [Ha Hb].
    destruct (load_loop_contained 0 a [] w Ha) as (wa & Hla & _).
    destruct (load_loop_contained 0 b [] w Hb) as (wb & Hlb & _).
    eexists _, _, _, _. rewrite !load_antibody_data_run, Hla, Hlb. simpl.
    split; [done|]. split; [done|]. apply omap_app.
  - intros (out_a & out_b & wa & wb & Ha & Hb & ->).
    apply load_antibody_data_Ok in Ha
      as (-> & wa1 & [Hca _]%load_loop_trace & _).
    apply load_antibody_data_Ok in Hb
      as (-> & wb1 & [Hcb _]%load_loop_trace & _).
    destruct (load_loop_contained 0 (a ++ b) [] w) as (w1 & Hl & _);
      [by apply Forall_app|].
    eexists. rewrite load_antibody_data_run, Hl. simpl.
    by rewrite omap_app.
Qed.

(** ** The composite score, again *)

Lemma not_number_nan (x : float) :
  (x =? x)%float = false → Prim2SF x = S754_nan.
Proof.
  rewrite FloatAxioms.eqb_spec. unfold SFeqb. intros H.
  destruct (Prim2SF x) as [s|s| |s m e] eqn:Hx; [| |done|];
    by rewrite FloatFacts.SFcompare_refl in H.
Qed.

Lemma ltb_number (x y : float) : (x <? y)%float = true → is_number x.
Proof.
  rewrite FloatAxioms.ltb_spec, FloatFacts.is_number_spec. unfold SFltb.
  intros H Hx. by rewrite Hx in H.
Qed.

(** The affinity term of the score is capped.  When the score is defined
    it is the weighted sum whose last term is
    [min(100, 100/(affinity+1)) * 0.2], and whatever the binding affinity
    is, [min(100, 100/(affinity+1))] is a number and is at most 100. *)
Theorem composite_score_affinity_cap (c : AntibodyCandidate) (k : float) :
  composite_score c = Ok k →
  let term := Py.min 100 (100 / (binding_affinity c + 1))%float in
  k = (stability_score c * 0.3 + solubility_score c * 0.25
       + (100 - immunogenicity_score c) * 0.25 + term * 0.2)%float
  ∧ is_number term
  ∧ (term <=? 100)%float = true.
Proof.
  unfold composite_score, Py.float_div.
  destruct (_ =? 0)%float; simpl; [done|]. intros [= <-].
  split; [done|]. unfold Py.min.
  destruct (_ <? 100)%float eqn:Hlt.
  - split; [by eapply ltb_number|by apply FloatFacts.ltb_leb].
  - by split.
Qed.

(** A NaN binding affinity does not make the score a NaN: the comparison
    inside [min] is false, so the affinity term is the cap 100, the value
    it has for the strongest binding. *)
Theorem composite_score_nan_affinity (c : AntibodyCandidate) :
  ¬ is_number (binding_affinity c) →
  composite_score c =
    Ok (stability_score c * 0.3 + solubility_score c * 0.25
        + (100 - immunogenicity_score c) * 0.25 + 100 * 0.2)%float.
Proof.
  intros Hnan%not_true_is_false%not_number_nan.
  assert (Prim2SF (binding_affinity c + 1) = S754_nan) as Hsum
    by (by rewrite FloatAxioms.add_spec, Hnan).
  assert (Prim2SF (100 / (binding_affinity c + 1)) = S754_nan) as Hquot
    by (by rewrite FloatAxioms.div_spec, Hsum).
  unfold composite_score, Py.float_div, Py.min.
  rewrite FloatAxioms.eqb_spec, Hsum. simpl.
  rewrite FloatAxioms.ltb_spec, Hquot. done.
Qed.

Lemma composite_score_nan_affinity_witness :
  composite_score (create_mock_candidate "0001" 80.0 70.0 25.0 nan) =
    Ok (stability_score (create_mock_candidate "0001" 80.0 70.0 25.0 nan) * 0.3
        + solubility_score (create_mock_candidate "0001" 80.0 70.0 25.0 nan)
          * 0.25
        + (100 - immunogenicity_score
                   (create_mock_candidate "0001" 80.0 70.0 25.0 nan)) * 0.25
        + 100 * 0.2)%float.
Proof.
  apply composite_score_nan_affinity. unfold is_number. vm_compute. discriminate.
Defined.

(** ** The main flow *)

(** [main] on its 1000 mock records, in a fresh process.  All records are
    loaded and 67 pass the screen, which logs the rate 6.7; the report
    holds the 5 best of them and gives [passed_count = 5] for
    [total_input = 1000], a pass rate of 0.5%.  The report is written to
    [screening_report.json]; when that file cannot be opened, [main]
    raises [OSError]. *)
Theorem main_report (repr : float → string) (E : env) :
  (open_fails E "screening_report.json" = false →
   ∃ r w',
     main repr E empty_world = (Ok r, w')
     ∧ summary r = {| total_input := 1000; passed_count := 5;
                      pass_rate := "0.5%" |}
     ∧ (λ e, id (fields e)) <$> top_candidates r
       = ["AB_0549"; "AB_0548"; "AB_0547"; "AB_0546"; "AB_0545"]
     ∧ trace w' = [Log INFO (Loaded 1000 1000);
                   Log INFO (Screened 1000 67 "6.7");
                   Console r;
                   FileWrite "screening_report.json" r;
                   Log INFO (ReportSaved "screening_report.json")])
  ∧ (open_fails E "screening_report.json" = true →
     ∃ w', main repr E empty_world = (Raise OSError, w')).
Proof.
  destruct E as [t fails]. simpl. split; intros Hopen.
  - eexists _, _. split.
    + vm_compute. rewrite Hopen. vm_compute. reflexivity.
    + split; [reflexivity|]. split; reflexivity.
  - eexists. vm_compute. rewrite Hopen. vm_compute. reflexivity.
Qed.

(** ** The further properties at concrete inputs *)

Lemma load_antibody_data_provenance_witness :
  Forall (λ c,
    (50 ≤ String.length (sequence c))%nat
    ∧ Py.upper (sequence c) = sequence c
    ∧ ∃ record, record ∈ mixed_batch
        ∧ has_text record "id" (id c)
        ∧ (∃ s, has_text record "sequence" s ∧ sequence c = Py.upper s)
        ∧ has_float record "stability_score" (stability_score c)
        ∧ has_float record "solubility_score" (solubility_score c)
        ∧ has_float record "immunogenicity_score" (immunogenicity_score c)
        ∧ has_float record "binding_affinity" (binding_affinity c))
    [create_mock_candidate "0001" 85.0 70.0 25.0 0.5].
Proof.
  eapply (load_antibody_data_provenance mixed_batch empty_world).
  vm_compute. reflexivity.
Defined.

Lemma load_antibody_data_accounts_witness :
  let w' :=
    {| heap := ∅;
       trace := [Log WARNING (MissingFields 1);
                 Log WARNING (SequenceTooShort "AB_0003");
                 Log ERROR (BadFormat 3 ValueError);
                 Log INFO (Loaded 1 4)] |} in
  let out := [create_mock_candidate "0001" 85.0 70.0 25.0 0.5] in
  heap w' = heap empty_world
  ∧ ∃ events,
      trace w' = trace empty_world ++ events
                 ++ [Log INFO (Loaded (Py.len out) (Py.len mixed_batch))]
      ∧ (length events + length out = length mixed_batch)%nat
      ∧ Forall (λ ev, ∃ lvl m, lvl ≠ INFO ∧ ev = Log lvl m) events.
Proof.
  apply (load_antibody_data_accounts mixed_batch empty_world).
  vm_compute. reflexivity.
Defined.

Lemma load_antibody_data_raises_witness :
  ∃ before record after,
    mixed_batch ++
      [raw "AB_0005" SEQ (huge_int ("1" +:+ Py.zeros 400))
         (number 70.0 "70.0") (number 25.0 "25.0") (number 0.5 "0.5")]
    = before ++ record :: after
    ∧ Forall contained before
    ∧ Forall (λ field, is_Some (record !! field)) required_fields
    ∧ convert record = Raise OverflowError
    ∧ handled OverflowError = false.
Proof.
  eapply (load_antibody_data_raises _ empty_world).
  vm_compute. reflexivity.
Defined.

(** An affinity of [-0.5]: the quotient is 200 and the term is the cap. *)
Lemma composite_score_affinity_cap_witness :
  let c := create_mock_candidate "0001" 80.0 70.0 25.0 (-0.5) in
  let term := Py.min 100 (100 / (binding_affinity c + 1))%float in
  80.25%float
  = (stability_score c * 0.3 + solubility_score c * 0.25
     + (100 - immunogenicity_score c) * 0.25 + term * 0.2)%float
  ∧ is_number term
  ∧ (term <=? 100)%float = true.
Proof.
  apply (composite_score_affinity_cap
           (create_mock_candidate "0001" 80.0 70.0 25.0 (-0.5))).
  vm_compute. reflexivity.
Defined.

Lemma screen_antibodies_sound_witness :
  let out := [create_mock_candidate "0002" 90.0 70.0 25.0 0.5;
              create_mock_candidate "0004" 88.0 70.0 25.0 0.5] in
  out ⊆+ top_k_batch
  ∧ Forall (λ c, passes_gate (test_config 2) c) out
  ∧ heap (with_event empty_world (Log INFO (Screened 4 4 "100.0")))
    = heap empty_world.
Proof.
  apply (screen_antibodies_sound top_k_batch (test_config 2) empty_world).
  vm_compute. reflexivity.
Defined.

Lemma screen_antibodies_length_witness :
  let n := Py.len (filter (λ c, passes_gate (test_config (-1)) c)
                     top_k_batch) in
  Py.len [create_mock_candidate "0002" 90.0 70.0 25.0 0.5;
          create_mock_candidate "0004" 88.0 70.0 25.0 0.5;
          create_mock_candidate "0003" 85.0 70.0 25.0 0.5]
  = if 0 <=? top_k (test_config (-1)) then Z.min (top_k (test_config (-1))) n
    else Z.max 0 (n + top_k (test_config (-1))).
Proof.
  eapply (screen_antibodies_length top_k_batch (test_config (-1)) empty_world).
  vm_compute. reflexivity.
Defined.

Lemma screen_antibodies_idempotent_witness :
  let out := [create_mock_candidate "0002" 90.0 70.0 25.0 0.5;
              create_mock_candidate "0004" 88.0 70.0 25.0 0.5] in
  (out ≠ [] →
   ∃ rate, screen_antibodies out (test_config 2) empty_world
           = (Ok out,
              with_event empty_world
                (Log INFO (Screened (Py.len out) (Py.len out) rate))))
  ∧ (out = [] →
     screen_antibodies out (test_config 2) empty_world
     = (Raise ZeroDivisionError, empty_world)).
Proof.
  eapply (screen_antibodies_idempotent top_k_batch (test_config 2)
            empty_world).
  - vm_compute. reflexivity.
  - simpl. lia.
Defined.

Lemma generate_report_consistent_witness :
  ∃ r w',
    generate_report (env_at "2025-01-01T09:00:00") 1%positive 100
      (Some "report.json") (world_with top_k_batch) = (Ok r, w')
    ∧ timestamp r = "2025-01-01T09:00:00"
    ∧ total_input (summary r) = 100
    ∧ passed_count (summary r) = Py.len top_k_batch
    ∧ length (top_candidates r) = length top_k_batch
    ∧ rank <$> top_candidates r = ranks (length top_k_batch)
    ∧ fields <$> top_candidates r ≡ₚ top_k_batch
    ∧ Forall (λ e, ∃ k, composite_score (fields e) = Ok k
                        ∧ rounded_score e = Py.round k 2) (top_candidates r)
    ∧ length (recommendations r) = (3 `min` length top_k_batch)%nat.
Proof.
  eexists _, _. split; [vm_compute; reflexivity|].
  eapply (generate_report_consistent (env_at "2025-01-01T09:00:00")
            1%positive 100 (Some "report.json") (world_with top_k_batch)).
  - reflexivity.
  - vm_compute. reflexivity.
Defined.

Lemma generate_report_persists_witness :
  ∃ r w',
    generate_report (env_at "2025-01-01T09:00:00") 1%positive 100
      (Some "report.json") (world_with top_k_batch) = (Ok r, w')
    ∧ trace w' = trace (world_with top_k_batch)
                 ++ [Console r; FileWrite "report.json" r;
                     Log INFO (ReportSaved "report.json")].
Proof.
  eexists _, _. split; [vm_compute; reflexivity|].
  eapply (generate_report_persists (env_at "2025-01-01T09:00:00")
            1%positive 100 (Some "report.json") (world_with top_k_batch)).
  - reflexivity.
  - vm_compute. reflexivity.
Defined.


Lemma generate_report_returns_iff_witness :
  (100 = 0
   ∨ Exists (λ c, (binding_affinity c =? -1)%float = true) top_k_batch →
   (generate_report (env_at "2025-01-01T09:00:00") 1%positive 100 None
      (world_with top_k_batch)).1 = Raise ZeroDivisionError)
  ∧ (100 ≠ 0 →
     Forall (λ c, (binding_affinity c =? -1)%float = false) top_k_batch →
     (∀ path, truthy_path None = Some path →
              open_fails (env_at "2025-01-01T09:00:00") path = false) →
     ∃ r w', generate_report (env_at "2025-01-01T09:00:00") 1%positive 100
               None (world_with top_k_batch) = (Ok r, w')).
Proof.
  apply (generate_report_returns_iff _ 1%positive 100 None
           (world_with top_k_batch) top_k_batch).
  - reflexivity.
  - vm_compute. discriminate.
Defined.

Lemma generate_report_after_screen_witness :
  let out := [create_mock_candidate "0002" 90.0 70.0 25.0 0.5;
              create_mock_candidate "0004" 88.0 70.0 25.0 0.5] in
  ∃ r w',
    generate_report (env_at "2025-01-01T09:00:00") 1%positive 4 None
      (world_with out) = (Ok r, w')
    ∧ fields <$> top_candidates r = out.
Proof.
  eexists _, _. split; [vm_compute; reflexivity|].
  eapply (generate_report_after_screen (env_at "2025-01-01T09:00:00")
            top_k_batch (test_config 2) empty_world _ _ 1%positive 4 None
            (world_with _)).
  - vm_compute. reflexivity.
  - reflexivity.
  - vm_compute. reflexivity.
Defined.

Lemma generate_report_order_independent_witness :
  ∃ r1 w1 r2 w2,
    generate_report (env_at "2025-01-01T09:00:00") 1%positive 100 None
      (world_with top_k_batch) = (Ok r1, w1)
    ∧ generate_report (env_at "2025-01-01T09:00:00") 1%positive 100 None
        (world_with (reverse top_k_batch)) = (Ok r2, w2)
    ∧ r1 = r2.
Proof.
  eexists _, _, _, _. split; [vm_compute; reflexivity|].
  split; [vm_compute; reflexivity|].
  eapply (generate_report_order_independent (env_at "2025-01-01T09:00:00")
            1%positive 1%positive 100 (world_with top_k_batch) _
            (world_with (reverse top_k_batch)) _
            top_k_batch (reverse top_k_batch)).
  - reflexivity.
  - reflexivity.
  - symmetry. apply reverse_Permutation.
  - exact top_k_batch_scorable.
  - intros a b Ha Hb (ka & kb & Hka & Hkb & Hle) (kb' & ka' & Hkb' & Hka' & Hle').
    unfold top_k_batch in Ha, Hb. set_unfold in Ha. set_unfold in Hb.
    destruct Ha as [->|[->|[->|[->|[]]]]], Hb as [->|[->|[->|[->|[]]]]];
      try reflexivity;
      vm_compute in Hka, Hkb, Hkb', Hka';
      injection Hka as <-; injection Hkb as <-;
      injection Hka' as <-; injection Hkb' as <-;
      vm_compute in Hle, Hle'; discriminate.
  - vm_compute. reflexivity.
  - vm_compute. reflexivity.
Defined.
